(** * allure_enrich_steps: JUnit reports to enriched Allure results

    A shallow embedding of [scripts/allure_enrich_steps.py] and the
    properties of its five stages: the report collector, the flow step
    extractor, the failure correlator, the screenshot copier and the
    result emitter.

    Conventions of the embedding.
    - Python [str] values are [string]s of ASCII characters.  The character
      classes of [str.strip], [str.lower], [str.splitlines] and of the [re]
      module are the ones Python uses on code points below 128.
    - Python [float] values are exact rationals ([Q]); [int(x)] truncates
      toward zero.  Binary rounding of float arithmetic is not represented.
    - Exceptions are values of [exn]; a computation that may raise returns
      an [outcome].
    - The file system, the clock and [uuid.uuid4] are fields of an explicit
      [world] that is threaded through the pipeline. *)

From Stdlib Require Import Bool Arith List String Ascii ZArith NArith QArith Lia.
From Stdlib Require Import Lqa.
Import ListNotations.

Local Open Scope list_scope.
Local Open Scope string_scope.

(** ** Characters *)

Module PyChar.

Definition code (c : ascii) : N := N_of_ascii c.

Definition between (lo hi : N) (c : ascii) : bool :=
  ((lo <=? code c) && (code c <=? hi))%N.

Definition dquote : ascii := ascii_of_N 34.
Definition squote : ascii := ascii_of_N 39.
Definition LF : ascii := ascii_of_N 10.
Definition CR : ascii := ascii_of_N 13.
Definition TAB : ascii := ascii_of_N 9.

(** [str.isspace] on ASCII: TAB LF VT FF CR, FS GS RS US, space. *)
Definition is_space (c : ascii) : bool :=
  between 9 13 c || between 28 31 c || (code c =? 32)%N.

(** [\w] on ASCII. *)
Definition is_word (c : ascii) : bool :=
  between 48 57 c || between 65 90 c || between 97 122 c || (code c =? 95)%N.

Definition is_digit (c : ascii) : bool := between 48 57 c.

(** Line boundaries of [str.splitlines] on ASCII: LF VT FF CR FS GS RS. *)
Definition is_linebreak (c : ascii) : bool :=
  between 10 13 c || between 28 30 c.

Definition lower (c : ascii) : ascii :=
  if between 65 90 c then ascii_of_N (code c + 32) else c.

End PyChar.

(** ** Strings *)

Module PyStr.
Import PyChar.

Definition empty (s : string) : bool :=
  match s with EmptyString => true | _ => false end.

(** [a or b] on strings: the empty string is falsy. *)
Definition or_else (a b : string) : string := if empty a then b else a.

Definition char (c : ascii) : string := String c EmptyString.

Fixpoint rev_onto (s acc : string) : string :=
  match s with
  | EmptyString => acc
  | String c s' => rev_onto s' (String c acc)
  end.

Definition rev (s : string) : string := rev_onto s EmptyString.

Fixpoint lstrip_by (p : ascii -> bool) (s : string) : string :=
  match s with
  | String c s' => if p c then lstrip_by p s' else s
  | EmptyString => EmptyString
  end.

Definition rstrip_by (p : ascii -> bool) (s : string) : string :=
  rev (lstrip_by p (rev s)).

Definition strip_by (p : ascii -> bool) (s : string) : string :=
  rstrip_by p (lstrip_by p s).

(** [s.strip()], [s.rstrip()] *)
Definition strip : string -> string := strip_by is_space.
Definition rstrip : string -> string := rstrip_by is_space.

(** [s.lstrip(chars)], [s.strip(chars)] for a one-character [chars] *)
Definition lstrip_char (c : ascii) : string -> string := lstrip_by (Ascii.eqb c).
Definition strip_char (c : ascii) : string -> string := strip_by (Ascii.eqb c).

(** [s.startswith(p)] *)
Fixpoint startswith (p s : string) : bool :=
  match p, s with
  | EmptyString, _ => true
  | String a p', String b s' => Ascii.eqb a b && startswith p' s'
  | String _ _, EmptyString => false
  end.

(** [p in s] *)
Fixpoint contains (p s : string) : bool :=
  startswith p s ||
  match s with
  | String _ s' => contains p s'
  | EmptyString => false
  end.

(** [s.replace(old, new)] for a non-empty [old]: occurrences are replaced
    left to right and do not overlap.  [skip] counts the characters of an
    occurrence that is being passed over. *)
Fixpoint replace_from (old new : string) (skip : nat) (s : string) : string :=
  match s with
  | EmptyString => EmptyString
  | String c s' =>
      match skip with
      | S k => replace_from old new k s'
      | O =>
          if startswith old s
          then new ++ replace_from old new (String.length old - 1) s'
          else String c (replace_from old new 0 s')
      end
  end.

Definition replace (old new s : string) : string := replace_from old new 0 s.

(** [s.lower()] *)
Fixpoint lower (s : string) : string :=
  match s with
  | EmptyString => EmptyString
  | String c s' => String (PyChar.lower c) (lower s')
  end.

(** [s.splitlines()]: [cur] is the line being read, reversed. *)
Fixpoint splitlines_from (cur : string) (s : string) : list string :=
  match s with
  | EmptyString => if empty cur then [] else [rev cur]
  | String c s' =>
      if is_linebreak c then
        rev cur ::
          match s' with
          | String d s'' =>
              if Ascii.eqb c CR && Ascii.eqb d LF
              then splitlines_from EmptyString s''
              else splitlines_from EmptyString s'
          | EmptyString => splitlines_from EmptyString s'
          end
      else splitlines_from (String c cur) s'
  end.

Definition splitlines (s : string) : list string := splitlines_from EmptyString s.

(** [sep.join(l)] with [sep] a single character, used to write file
    contents line by line. *)
Fixpoint unlines (l : list string) : string :=
  match l with
  | [] => EmptyString
  | x :: l' => x ++ String LF (unlines l')
  end.

Definition quoted (s : string) : string := String dquote (s ++ char dquote).

End PyStr.

(** ** Regular expressions

    A backtracking matcher for the fragment of Python's [re] that the
    script uses: literal characters, one character of a class, greedy
    [*] and [?] on a class, non-nested capture groups and [$]. *)

Module Re.
Import PyChar PyStr.

Inductive item : Type :=
| Chr (c : ascii)
| One (p : ascii -> bool)
| Star (p : ascii -> bool)
| Opt (p : ascii -> bool)
| Open
| Close
| Eol.

Definition regex := list item.

Fixpoint lit (s : string) : regex :=
  match s with
  | EmptyString => []
  | String c s' => Chr c :: lit s'
  end.

Definition plus (p : ascii -> bool) : regex := [One p; Star p].
Definition group (r : regex) : regex := Open :: (r ++ [Close])%list.

(** Character classes *)
Definition space : ascii -> bool := is_space.
Definition nonspace (c : ascii) : bool := negb (is_space c).
Definition word : ascii -> bool := is_word.
Definition dot (c : ascii) : bool := negb (Ascii.eqb c LF).
Definition quote (c : ascii) : bool := Ascii.eqb c dquote || Ascii.eqb c squote.

(** Captures: the groups closed so far, and the group being read. *)
Record captures : Type := { closed : list string; current : option string }.

Definition start : captures := {| closed := []; current := None |}.

Definition eat (c : ascii) (k : captures) : captures :=
  {| closed := closed k;
     current := option_map (fun g => g ++ char c) (current k) |}.

Definition open (k : captures) : captures :=
  {| closed := closed k; current := Some EmptyString |}.

Definition close (k : captures) : captures :=
  {| closed := (closed k ++ match current k with Some g => [g] | None => [] end)%list;
     current := None |}.

(** [run r s k] matches [r] at the start of [s]; the result is the groups
    and the unread rest of [s]. *)
Fixpoint run (r : regex) : string -> captures -> option (list string * string) :=
  match r with
  | [] => fun s k => Some (closed k, s)
  | Chr c :: r' => fun s k =>
      match s with
      | String d s' => if Ascii.eqb c d then run r' s' (eat d k) else None
      | EmptyString => None
      end
  | One p :: r' => fun s k =>
      match s with
      | String d s' => if p d then run r' s' (eat d k) else None
      | EmptyString => None
      end
  | Star p :: r' =>
      fix star (s : string) (k : captures) : option (list string * string) :=
        match s with
        | String d s' =>
            if p d then
              match star s' (eat d k) with
              | Some m => Some m
              | None => run r' s k
              end
            else run r' s k
        | EmptyString => run r' s k
        end
  | Opt p :: r' => fun s k =>
      match s with
      | String d s' =>
          if p d then
            match run r' s' (eat d k) with
            | Some m => Some m
            | None => run r' s k
            end
          else run r' s k
      | EmptyString => run r' s k
      end
  | Open :: r' => fun s k => run r' s (open k)
  | Close :: r' => fun s k => run r' s (close k)
  | Eol :: r' => fun s k =>
      if empty s || String.eqb s (char LF) then run r' s k else None
  end.

(** [re.match(r, s)]: the groups of a match at the start of [s]. *)
Definition rmatch (r : regex) (s : string) : option (list string) :=
  option_map fst (run r s start).

(** [re.search(r, s)]: the groups of the leftmost match. *)
Fixpoint search (r : regex) (s : string) : option (list string) :=
  match run r s start with
  | Some (g, _) => Some g
  | None =>
      match s with
      | String _ s' => search r s'
      | EmptyString => None
      end
  end.

(** [re.findall(r, s)] for a pattern with one group that matches no empty
    string: the group of every match, left to right, without overlap. *)
Fixpoint findall_from (r : regex) (skip : nat) (s : string) : list string :=
  match s with
  | EmptyString => []
  | String _ s' =>
      match skip with
      | S n => findall_from r n s'
      | O =>
          match run r s start with
          | Some (g, rest) =>
              hd EmptyString g ::
                findall_from r (String.length s - String.length rest - 1) s'
          | None => findall_from r 0 s'
          end
      end
  end.

Definition findall (r : regex) (s : string) : list string := findall_from r 0 s.

Definition group1 (g : list string) : string := nth 0 g EmptyString.
Definition group2 (g : list string) : string := nth 1 g EmptyString.

End Re.

(** ** Flow step extractor: [steps_from_flow_yaml] *)

Module Flow.
Import PyChar PyStr Re.

(** The command pattern of line 96, used with [re.match]: blanks, a dash,
    at least one blank, a word (group 1), blanks, a colon, blanks, the
    rest of the line (group 2), end of the string. *)
Definition command_re : regex :=
  ([Star space; Chr "-"%char] ++ plus space ++ group (plus word)
     ++ [Star space; Chr ":"%char; Star space] ++ group [Star dot] ++ [Eol])%list.

(** The pattern of line 104: [file:], blanks, [../subflows/], then a run
    of non-blank characters (group 1). *)
Definition subflow_re : regex :=
  (lit "file:" ++ [Star space] ++ lit "../subflows/" ++ group (plus nonspace))%list.

(** The pattern of lines 115, 123 and 132: [id:], blanks, an optional
    quote character, then a run of characters that are neither quotes
    nor blanks (group 1). *)
Definition id_re : regex :=
  (lit "id:" ++ [Star space; Opt quote]
     ++ group (plus (fun c => negb (quote c) && negb (is_space c))))%list.

(** The pattern of lines 128 and 135: [text:], blanks, an optional quote
    character, then a run of characters that are neither quotes nor
    line feeds (group 1). *)
Definition text_re : regex :=
  (lit "text:" ++ [Star space; Opt quote]
     ++ group (plus (fun c => negb (quote c) && negb (Ascii.eqb c LF))))%list.

(** The [runFlow] branch: the lines after the command, while they are
    indented, are searched for a subflow file reference. *)
Fixpoint runflow_subname (following : list string) : string :=
  match following with
  | l :: following' =>
      if startswith " " l || startswith (char TAB) l then
        match search subflow_re l with
        | Some sub => replace ".yaml" EmptyString (group1 sub)
        | None => runflow_subname following'
        end
      else "subflow"
  | [] => "subflow"
  end.

(** [id_match.group(1) if id_match else detail] after [re.search(id, detail)] *)
Definition id_of (detail : string) : string :=
  match search id_re detail with
  | Some id_match => group1 id_match
  | None => detail
  end.

Definition tapOn_step (rest : string) : string :=
  let detail := rest in
  let detail := if contains "id:" detail then id_of detail else detail in
  if empty detail then "Tap" else "Tap: " ++ detail.

(** The multi-line branch of [assertVisible]: the body of
    [for j in range(i, min(i + 5, len(lines)))], on the lines it visits. *)
Fixpoint assert_lookahead (window : list string) : string :=
  match window with
  | [] => EmptyString
  | l :: window' =>
      match search id_re l with
      | Some id_match => group1 id_match
      | None =>
          if contains "text:" l then
            strip_char dquote
              match search text_re l with
              | Some text_match => strip (group1 text_match)
              | None => EmptyString
              end
          else assert_lookahead window'
      end
  end.

Definition assertVisible_step (rest : string) (following : list string) : string :=
  let detail := rest in
  let detail :=
    if empty detail then assert_lookahead (firstn 5 following) else detail in
  let detail :=
    if contains "id:" detail then id_of detail
    else if contains "text:" detail then
      match search text_re detail with
      | Some text_match => strip (group1 text_match)
      | None => detail
      end
    else detail in
  if empty detail then "Assert visible" else "Assert visible: " ++ detail.

(** The dispatch on the command name; [following] is [lines[i:]]. *)
Definition command_step (cmd rest : string) (following : list string) : string :=
  if String.eqb cmd "runFlow" then "Run flow: " ++ runflow_subname following
  else if String.eqb cmd "launchApp" then "Launch app (clear state)"
  else if String.eqb cmd "tapOn" then tapOn_step rest
  else if String.eqb cmd "assertVisible" then assertVisible_step rest following
  else cmd ++ (if empty rest then EmptyString else " (" ++ rest ++ ")").

(** The [while i < len(lines)] loop: one line is consumed per iteration,
    the look-ahead of a command reads [lines[i:]] without consuming it. *)
Fixpoint scan_lines (in_steps : bool) (lines : list string) : list string :=
  match lines with
  | [] => []
  | line :: following =>
      let line_stripped := rstrip line in
      if String.eqb (strip line_stripped) "---" then scan_lines true following
      else if negb in_steps then scan_lines in_steps following
      else if startswith "#" (strip line_stripped)
              && negb (String.eqb (strip line_stripped) "#")
      then or_else (strip (lstrip_char "#"%char (strip line_stripped))) "Comment"
             :: scan_lines in_steps following
      else
        match rmatch command_re line_stripped with
        | Some m =>
            command_step (group1 m) (strip (group2 m)) following
              :: scan_lines in_steps following
        | None => scan_lines in_steps following
        end
  end.

(** [steps_from_flow_yaml(flow_path)]; the argument is the content of the
    file at [flow_path], [None] when the file does not exist. *)
Definition steps_from_flow_yaml (flow : option string) : list string :=
  match flow with
  | None => []
  | Some text => scan_lines false (splitlines text)
  end.

End Flow.

(** ** Numbers *)

Module PyNum.
Import PyChar PyStr.
Local Open Scope Z_scope.

(** [int(x)] on a float: truncation toward zero. *)
Definition int (x : Q) : Z := Z.quot (Qnum x) (Z.pos (Qden x)).

(** [a > b] on floats *)
Definition gt (a b : Q) : bool := negb (Qle_bool a b).

(** [sum(xs)]: starts from 0 and adds from the left. *)
Definition sum (xs : list Q) : Q := fold_left Qplus xs 0%Q.

Definition digit_value (c : ascii) : Z := Z.of_N (code c) - 48.

(** Reads a run of decimal digits: the value accumulated on [acc], the
    number of digits read, and the rest. *)
Fixpoint digits (acc : Z) (n : nat) (s : string) : Z * nat * string :=
  match s with
  | String c s' =>
      if is_digit c then digits (10 * acc + digit_value c) (S n) s'
      else (acc, n, s)
  | EmptyString => (acc, n, s)
  end.

Definition sign (s : string) : bool * string :=
  match s with
  | String c s' =>
      if Ascii.eqb c "-" then (true, s')
      else if Ascii.eqb c "+" then (false, s')
      else (false, s)
  | EmptyString => (false, s)
  end.

Definition exponent (s : string) : option Z :=
  match s with
  | EmptyString => Some 0
  | String c s' =>
      if Ascii.eqb c "e" || Ascii.eqb c "E" then
        let '(neg, s1) := sign s' in
        let '(e, n, s2) := digits 0 0 s1 in
        if (0 <? n)%nat && empty s2 then Some (if neg then - e else e) else None
      else None
  end.

(** [float(s)] on a decimal literal: blanks around it, a sign, digits with
    an optional fraction, an optional exponent.  [None] stands for
    [ValueError].  The spellings [inf], [nan] and digit groups separated
    by underscores are not represented and are rejected. *)
Definition float_of_string (s : string) : option Q :=
  let '(neg, s0) := sign (strip s) in
  let '(ip, ni, s1) := digits 0 0 s0 in
  let '(m, nf, s2) :=
    match s1 with
    | String c s1' => if Ascii.eqb c "." then digits ip 0 s1' else (ip, O, s1)
    | EmptyString => (ip, O, s1)
    end in
  if (0 <? ni + nf)%nat then
    match exponent s2 with
    | Some e =>
        let x := (Qmake m (Z.to_pos (10 ^ Z.of_nat nf)) * Qpower (inject_Z 10) e)%Q in
        Some (if neg then Qopp x else x)
    | None => None
    end
  else None.

End PyNum.

(** ** ElementTree elements *)

Module ET.
Import PyStr.

#[warnings="-register-all"]
Inductive element : Type :=
| Element (tag : string) (attrib : list (string * string))
          (text : option string) (children : list element).

Definition tag (e : element) : string := let 'Element t _ _ _ := e in t.
Definition attrib (e : element) := let 'Element _ a _ _ := e in a.
Definition text (e : element) : option string := let 'Element _ _ x _ := e in x.
Definition children (e : element) : list element := let 'Element _ _ _ c := e in c.

Fixpoint lookup {A : Type} (k : string) (d : list (string * A)) : option A :=
  match d with
  | [] => None
  | (k', v) :: d' => if String.eqb k k' then Some v else lookup k d'
  end.

(** [e.get(key)] *)
Definition get (e : element) (key : string) : option string := lookup key (attrib e).

(** [e.findall(tag)]: the children with that tag, in document order. *)
Definition findall (e : element) (t : string) : list element :=
  filter (fun c => String.eqb (tag c) t) (children e).

(** [e.find(tag)]: the first child with that tag. *)
Definition find (e : element) (t : string) : option element :=
  List.find (fun c => String.eqb (tag c) t) (children e).

(** The elements below [e] on all levels, in document order. *)
Fixpoint descendants (e : element) : list element :=
  match e with
  | Element _ _ _ cs =>
      (fix below (l : list element) : list element :=
         match l with
         | [] => []
         | c :: l' => (c :: descendants c ++ below l')%list
         end) cs
  end.

(** [e.findall(".//tag")] *)
Definition findall_below (e : element) (t : string) : list element :=
  filter (fun c => String.eqb (tag c) t) (descendants e).

(** [x or <empty string>] on an optional string *)
Definition or_empty (x : option string) : string :=
  match x with Some s => s | None => EmptyString end.

End ET.

(** ** Data of the pipeline *)

Inductive status : Type := passed | failed | skipped.

Definition status_eqb (a b : status) : bool :=
  match a, b with
  | passed, passed | failed, failed | skipped, skipped => true
  | _, _ => false
  end.

(** The [status_details] dictionary. *)
Record details : Type := { message : string; trace : string }.

(** An element of [cases]. *)
Record case : Type := {
  report_name : string;
  flow_name : string;
  case_name : string;
  case_status : status;
  time_sec : Q;
  status_details : option details
}.

(** The [att] dictionary. *)
Record attachment : Type := {
  att_name : string;
  att_source : string;
  att_type : string
}.

(** A [step_payload] dictionary; an absent key is [None]. *)
Record step : Type := {
  step_name : string;
  step_status : status;
  step_start : Z;
  step_stop : Z;
  step_statusDetails : option details;
  step_attachments : option (list attachment)
}.

(** The [result] dictionary; an absent key is [None]. *)
Record result : Type := {
  uuid : string;
  historyId : string;
  fullName : string;
  name : string;
  result_status : status;
  start : Z;
  stop : Z;
  labels : list (string * string);
  steps : list step;
  statusDetails : option details;
  attachments : option (list attachment)
}.

(** ** The world: files, clock and identifiers *)

(** A report file: [ET.parse] either raises or gives the root element. *)
Inductive xml_file : Type := Malformed | Document (root : ET.element).

(** One path yielded by [rglob] under a test-output directory. *)
Record entry : Type := { path : string; is_file : bool; st_mtime : Q }.

(** What the run creates in [RESULTS_DIR]. *)
Inductive body : Type :=
| ResultJson (r : result)
| CopyOf (src : entry).

Record world : Type := {
  (** [RESULTS_DIR/<key>.xml], by key *)
  reports : list (string * xml_file);
  (** [FLOWS_DIR/<name>], by name, with the text of the file *)
  flows : list (string * string);
  (** [RESULTS_DIR/<dir>], by name, with what [rglob] yields, in its order *)
  output_dirs : list (string * list entry);
  (** the files the run has written into [RESULTS_DIR], the latest first *)
  created : list (string * body);
  (** [int(time.time() * 1000)] *)
  now_ms : Z;
  (** the successive identifiers cut from [uuid.uuid4()] (24 characters,
      dashes removed) *)
  uuid4 : nat -> string;
  uuid_calls : nat
}.

Inductive exn : Type := ParseError | ValueError | IndexError.

Inductive outcome (A : Type) : Type :=
| Ok (a : A)
| Raise (e : exn).

Arguments Ok {A} a.
Arguments Raise {A} e.

(** Computations on the world that may raise: the world at the raise is
    kept, as the files written before an exception stay written. *)
Definition M (A : Type) : Type := world -> outcome A * world.

Definition ret {A : Type} (a : A) : M A := fun w => (Ok a, w).

Definition raise {A : Type} (e : exn) : M A := fun w => (Raise e, w).

Definition bind {A B : Type} (m : M A) (k : A -> M B) : M B :=
  fun w =>
    match m w with
    | (Ok a, w') => k a w'
    | (Raise e, w') => (Raise e, w')
    end.

Declare Scope monad_scope.
Delimit Scope monad_scope with monad.
Notation "x <- m ;; k" := (bind m (fun x => k))
  (at level 61, m at next level, right associativity) : monad_scope.
Notation "m ;; k" := (bind m (fun _ => k))
  (at level 61, right associativity) : monad_scope.
Local Open Scope monad_scope.

Definition lift {A : Type} (o : outcome A) : M A := fun w => (o, w).

Definition gets {A : Type} (f : world -> A) : M A := fun w => (Ok (f w), w).

Definition modify (f : world -> world) : M unit := fun w => (Ok tt, f w).

(** A loop that threads a local variable through its iterations. *)
Fixpoint for_fold {A S : Type} (xs : list A) (s : S) (body : S -> A -> M S) : M S :=
  match xs with
  | [] => ret s
  | x :: xs' => s' <- body s x ;; for_fold xs' s' body
  end.

Definition remove_key {A : Type} (k : string) (d : list (string * A)) : list (string * A) :=
  filter (fun kv => negb (String.eqb k (fst kv))) d.

(** [xml_path.unlink()] *)
Definition unlink_report (key : string) : M unit :=
  modify (fun w =>
    {| reports := remove_key key (reports w); flows := flows w;
       output_dirs := output_dirs w; created := created w; now_ms := now_ms w;
       uuid4 := uuid4 w; uuid_calls := uuid_calls w |}).

(** Writing a file into [RESULTS_DIR]: the write is logged. *)
Definition write_file (file : string) (b : body) : M unit :=
  modify (fun w =>
    {| reports := reports w; flows := flows w; output_dirs := output_dirs w;
       created := (file, b) :: created w; now_ms := now_ms w;
       uuid4 := uuid4 w; uuid_calls := uuid_calls w |}).

(** A fresh identifier: [uuid.uuid4()], dashes removed, cut to 24
    characters. *)
Definition fresh_uuid : M string :=
  fun w =>
    (Ok (uuid4 w (uuid_calls w)),
     {| reports := reports w; flows := flows w; output_dirs := output_dirs w;
        created := created w; now_ms := now_ms w;
        uuid4 := uuid4 w; uuid_calls := S (uuid_calls w) |}).

(** ** Configuration tables *)

Definition REPORT_TO_FLOW_ORDER : list (string * string) :=
  [("assets_report", "assets_test.yaml");
   ("dashboard_report", "dashboard_test.yaml");
   ("profile_report", "profile_test.yaml")].

Definition REPORT_TO_MAESTRO_DIR : list (string * string) :=
  [("dashboard_report", "maestro-dashboard");
   ("assets_report", "maestro-assets");
   ("profile_report", "maestro-profile")].

Definition IMAGE_EXTENSIONS : list string :=
  [".png"; ".jpg"; ".jpeg"; ".gif"; ".bmp"; ".tiff"; ".webp"].

Definition IMAGE_MIME : list (string * string) :=
  [(".png", "image/png"); (".jpg", "image/jpeg"); (".jpeg", "image/jpeg");
   (".gif", "image/gif"); (".bmp", "image/bmp"); (".tiff", "image/tiff");
   (".webp", "image/webp")].

(** ** Screenshot locator and copier *)

Module Screenshot.
Import PyChar PyStr.

(** The text after the last [c] of [s], and whether anything precedes
    that [c]; [None] when [c] does not occur. *)
Definition after_last (c : ascii) (s : string) : option (string * bool) :=
  (fix go (r acc : string) : option (string * bool) :=
     match r with
     | EmptyString => None
     | String d r' =>
         if Ascii.eqb d c then Some (acc, negb (empty r'))
         else go r' (String d acc)
     end) (rev s) EmptyString.

(** [Path.name]: the last component of the path. *)
Definition name_of (p : string) : string :=
  match after_last "/" p with
  | Some (n, _) => n
  | None => p
  end.

(** [Path.suffix]: from the last dot of the name, when that dot is neither
    the first nor the last character of the name. *)
Definition suffix (p : string) : string :=
  match after_last "." (name_of p) with
  | Some (ext, true) => if empty ext then EmptyString else String "." ext
  | _ => EmptyString
  end.

(** [f.is_file() and f.suffix.lower() in IMAGE_EXTENSIONS] *)
Definition is_image (f : entry) : bool :=
  is_file f && existsb (String.eqb (lower (suffix (path f)))) IMAGE_EXTENSIONS.

(** The loop of [find_latest_screenshot] on what [rglob] yields. *)
Fixpoint latest_from (latest : option entry) (latest_mtime : Q)
         (fs : list entry) : option entry :=
  match fs with
  | [] => latest
  | f :: fs' =>
      if is_image f then
        let m := st_mtime f in
        if PyNum.gt m latest_mtime then latest_from (Some f) m fs'
        else latest_from latest latest_mtime fs'
      else latest_from latest latest_mtime fs'
  end.

(** [find_latest_screenshot(maestro_dir)]; the argument is the listing of
    the directory, [None] when it does not exist. *)
Definition find_latest_screenshot (maestro_dir : option (list entry)) : option entry :=
  match maestro_dir with
  | None => None
  | Some fs => latest_from None 0%Q fs
  end.

Definition mime_of (ext : string) : string :=
  match ET.lookup ext IMAGE_MIME with
  | Some mime => mime
  | None => "image/png"
  end.

(** [copy_screenshot_to_allure(maestro_dir, attachment_uuid)] *)
Definition copy_screenshot_to_allure (maestro_dir : option (list entry))
           (attachment_uuid : string) : M (option (string * string)) :=
  match find_latest_screenshot maestro_dir with
  | None => ret None
  | Some src =>
      let ext := lower (suffix (path src)) in
      let mime := mime_of ext in
      let dest := attachment_uuid ++ "-attachment" ++ ext in
      write_file dest (CopyOf src) ;;
      ret (Some (dest, mime))
  end.

End Screenshot.
(** ** Report collector *)

Module Collector.
Import PyStr.

(** The loop [for tag in ("failure", "error")] on a test case: the detail
    of the first marker found. *)
Definition detail_of_marker (node : ET.element) : details :=
  let msg := strip (ET.or_empty (ET.get node "message")) in
  let body := strip (ET.or_empty (ET.text node)) in
  {| message := or_else (or_else msg body) "Test failed";
     trace := if negb (String.eqb body msg) then body else EmptyString |}.

Fixpoint first_marker (tags : list string) (tc : ET.element) : option details :=
  match tags with
  | [] => None
  | t :: tags' =>
      match ET.find tc t with
      | Some node => Some (detail_of_marker node)
      | None => first_marker tags' tc
      end
  end.

Definition failure_detail (tc : ET.element) : option details :=
  first_marker ["failure"; "error"] tc.

(** Lines 168 to 177: the status of a test case. *)
Definition derive_status (tc : ET.element) (has_failure_node : bool) : status :=
  let status := lower (or_else (ET.or_empty (ET.get tc "status")) "SUCCESS") in
  if String.eqb status "success" then passed
  else if String.eqb status "failure" then failed
  else if has_failure_node then failed
  else passed.

(** [float(tc.get("time", 0))] *)
Definition time_of (tc : ET.element) : outcome Q :=
  match ET.get tc "time" with
  | None => Ok 0%Q
  | Some t =>
      match PyNum.float_of_string t with
      | Some x => Ok x
      | None => Raise ValueError
      end
  end.

(** The body of [for tc in suite.findall("testcase")]. *)
Definition case_of (report flow : string) (tc : ET.element) : outcome case :=
  let name :=
    or_else (or_else (ET.or_empty (ET.get tc "name")) (ET.or_empty (ET.get tc "id")))
            "Unnamed" in
  let status_details := failure_detail tc in
  let has_failure_node :=
    match status_details with Some _ => true | None => false end in
  let status := derive_status tc has_failure_node in
  match time_of tc with
  | Ok t =>
      Ok {| report_name := report; flow_name := flow; case_name := name;
            case_status := status; time_sec := t;
            status_details := status_details |}
  | Raise e => Raise e
  end.

Fixpoint cases_of (report flow : string) (tcs : list ET.element) : outcome (list case) :=
  match tcs with
  | [] => Ok []
  | tc :: tcs' =>
      match case_of report flow tc with
      | Ok c =>
          match cases_of report flow tcs' with
          | Ok cs => Ok (c :: cs)
          | Raise e => Raise e
          end
      | Raise e => Raise e
      end
  end.

(** The suites of a document, then their test cases, in document order. *)
Definition suites_of (root : ET.element) : list ET.element :=
  if String.eqb (ET.tag root) "testsuites"
  then ET.findall_below root "testsuite"
  else [root].

Definition testcases_of (root : ET.element) : list ET.element :=
  flat_map (fun suite => ET.findall suite "testcase") (suites_of root).

(** One iteration of [for report_name, flow_name in REPORT_TO_FLOW_ORDER]:
    the cases it appends. *)
Definition collect_report (rf : string * string) : M (list case) :=
  let '(report, flow) := rf in
  file <- gets (fun w => ET.lookup report (reports w)) ;;
  match file with
  | None => ret []
  | Some Malformed => raise ParseError
  | Some (Document root) =>
      cs <- lift (cases_of report flow (testcases_of root)) ;;
      unlink_report report ;;
      ret cs
  end.

(** Step 1 of [junit_to_allure_results]. *)
Definition collect : M (list case) :=
  for_fold REPORT_TO_FLOW_ORDER []
    (fun cases rf => cs <- collect_report rf ;; ret (cases ++ cs)%list).

End Collector.

(** ** Failure correlator *)

Module Correlator.
Import PyChar PyStr.

(** The pattern of line 208: a double quote, a run of characters other
    than the double quote (group 1), a double quote. *)
Definition quoted_re : Re.regex :=
  ([Re.Chr dquote] ++ Re.group (Re.plus (fun c => negb (Ascii.eqb c dquote)))
     ++ [Re.Chr dquote])%list.

(** The inner loop [for idx, step_name in enumerate(step_names)]: the
    index at its [break], [None] when it runs into its [else]. *)
Fixpoint first_containing (part : string) (idx : Z) (step_names : list string) : option Z :=
  match step_names with
  | [] => None
  | step_name :: rest =>
      if contains part step_name then Some idx
      else first_containing part (idx + 1) rest
  end.

(** The outer loop [for part in re.findall(...)]. *)
Fixpoint scan_parts (parts : list string) (step_names : list string)
         (failed_step_index : Z) : Z :=
  match parts with
  | [] => failed_step_index
  | part :: parts' =>
      if (2 <? String.length part)%nat then
        match first_containing part 0 step_names with
        | Some idx => idx
        | None => scan_parts parts' step_names failed_step_index
        end
      else scan_parts parts' step_names failed_step_index
  end.

Definition candidates (d : details) : list string :=
  let msg := or_else (message d) EmptyString ++ " " ++ or_else (trace d) EmptyString in
  Re.findall quoted_re msg.

(** Lines 202 to 216. *)
Definition failed_step_index (st : status) (status_details : option details)
           (step_names : list string) : Z :=
  let num_steps := Z.of_nat (List.length step_names) in
  let default := (num_steps - 1)%Z in
  match st, status_details with
  | failed, Some d => scan_parts (candidates d) step_names default
  | _, _ => default
  end.

End Correlator.

(** ** Result emitter *)

Module Emitter.
Import PyStr.
Local Open Scope Z_scope.

(** [len(l)] *)
Definition len {A : Type} (l : list A) : Z := Z.of_nat (List.length l).

Fixpoint update_nth {A : Type} (n : nat) (f : A -> A) (l : list A) : list A :=
  match l, n with
  | [], _ => []
  | x :: l', O => f x :: l'
  | x :: l', S n' => x :: update_nth n' f l'
  end.

(** [l[i] = f(l[i])] with Python's indices: a negative index counts from
    the end, an index outside the list raises [IndexError]. *)
Definition update_item {A : Type} (l : list A) (i : Z) (f : A -> A) : outcome (list A) :=
  let j := if i <? 0 then i + len l else i in
  if (j <? 0) || (len l <=? j) then Raise IndexError
  else Ok (update_nth (Z.to_nat j) f l).

Definition step_duration (time_sec : Q) (step_names : list string) : Z :=
  PyNum.int (time_sec * 1000 / inject_Z (Z.max (len step_names) 1))%Q.

(** The loop [for i, step_name in enumerate(step_names)], from index [i]. *)
Fixpoint step_objects_from (start_ms step_duration_ms : Z) (st : status)
         (status_details : option details) (failed_step_index : Z)
         (i : Z) (step_names : list string) : list step :=
  match step_names with
  | [] => []
  | step_name :: rest =>
      let s_start := start_ms + i * step_duration_ms in
      let s_stop := s_start + step_duration_ms in
      let step_status :=
        if negb (status_eqb st failed) then passed
        else if i =? failed_step_index then failed
        else if failed_step_index <? i then skipped
        else passed in
      {| step_name := step_name; step_status := step_status;
         step_start := s_start; step_stop := s_stop;
         step_statusDetails :=
           if status_eqb st failed && (i =? failed_step_index)
           then status_details else None;
         step_attachments := None |}
        :: step_objects_from start_ms step_duration_ms st status_details
             failed_step_index (i + 1) rest
  end.

Definition step_objects (start_ms : Z) (c : case) (step_names : list string) : list step :=
  step_objects_from start_ms (step_duration (time_sec c) step_names)
    (case_status c) (status_details c)
    (Correlator.failed_step_index (case_status c) (status_details c) step_names)
    0 step_names.

Definition attach_to_step (att : attachment) (s : step) : step :=
  {| step_name := step_name s; step_status := step_status s;
     step_start := step_start s; step_stop := step_stop s;
     step_statusDetails := step_statusDetails s;
     step_attachments := Some [att] |}.

Definition with_screenshot (att : attachment) (step_objects : list step) (r : result) : result :=
  {| uuid := uuid r; historyId := historyId r; fullName := fullName r;
     name := name r; result_status := result_status r;
     start := start r; stop := stop r; labels := labels r;
     steps := step_objects; statusDetails := statusDetails r;
     attachments := Some [att] |}.

(** Lines 253 to 263: the screenshot of a failed test. *)
Definition attach_screenshot (c : case) (failed_step_index : Z) (r : result) : M result :=
  match case_status c, ET.lookup (report_name c) REPORT_TO_MAESTRO_DIR with
  | failed, Some dir =>
      maestro_dir <- gets (fun w => ET.lookup dir (output_dirs w)) ;;
      att_uuid <- fresh_uuid ;;
      attachment_info <- Screenshot.copy_screenshot_to_allure maestro_dir att_uuid ;;
      match attachment_info with
      | Some (source_name, mime_type) =>
          let att := {| att_name := "Screenshot (failure)";
                        att_source := source_name; att_type := mime_type |} in
          if failed_step_index <? len (steps r) then
            step_objects <- lift (update_item (steps r) failed_step_index
                                              (attach_to_step att)) ;;
            ret (with_screenshot att step_objects r)
          else ret (with_screenshot att (steps r) r)
      | None => ret r
      end
  | _, _ => ret r
  end.

(** The body of [for ... in cases]: emits one record and returns the
    advanced [base_start_ms]. *)
Definition emit_case (base_start_ms : Z) (c : case) : M Z :=
  flow <- gets (fun w => ET.lookup (flow_name c) (flows w)) ;;
  let step_names := Flow.steps_from_flow_yaml flow in
  let start_ms := base_start_ms in
  let stop_ms := base_start_ms + PyNum.int (time_sec c * 1000)%Q in
  uid <- fresh_uuid ;;
  let history_id := "Test Suite:" ++ case_name c ++ "#" ++ case_name c in
  let full_name := "Test Suite:" ++ case_name c in
  let failed_step_index :=
    Correlator.failed_step_index (case_status c) (status_details c) step_names in
  let r :=
    {| uuid := uid; historyId := history_id; fullName := full_name;
       name := case_name c; result_status := case_status c;
       start := start_ms; stop := stop_ms;
       labels := [("suite", "Test Suite"); ("testClass", case_name c);
                  ("package", case_name c)];
       steps := step_objects start_ms c step_names;
       statusDetails :=
         if status_eqb (case_status c) failed then status_details c else None;
       attachments := None |} in
  r' <- attach_screenshot c failed_step_index r ;;
  write_file (uid ++ "-result.json") (ResultJson r') ;;
  ret stop_ms.

(** Step 2 of [junit_to_allure_results], for a non-empty [cases]. *)
Definition emit_all (cases : list case) : M unit :=
  let total_sec := PyNum.sum (map time_sec cases) in
  now <- gets now_ms ;;
  let base_start_ms := now - PyNum.int (total_sec * 1000)%Q in
  for_fold cases base_start_ms emit_case ;;
  ret tt.

End Emitter.

(** ** The pipeline *)

Definition junit_to_allure_results : M unit :=
  cases <- Collector.collect ;;
  match cases with
  | [] => ret tt
  | _ => Emitter.emit_all cases
  end.

(** ** Notions used in the statements *)

(** [p] occurs in [s] as a literal substring. *)
Definition occurs_in (p s : string) : Prop := exists a b, s = a ++ p ++ b.

Definition record_of (fb : string * body) : list result :=
  match snd fb with
  | ResultJson r => [r]
  | CopyOf _ => []
  end.

(** The result records written so far, the earliest first. *)
Definition emitted (w : world) : list result :=
  rev (flat_map record_of (created w)).

Definition copy_of (fb : string * body) : list string :=
  match snd fb with
  | ResultJson _ => []
  | CopyOf _ => [fst fb]
  end.

(** The attachment files written so far. *)
Definition copied (w : world) : list string := flat_map copy_of (created w).

(** A step record without its attachment key. *)
Definition without_attachments (s : step) : step :=
  {| step_name := step_name s; step_status := step_status s;
     step_start := step_start s; step_stop := step_stop s;
     step_statusDetails := step_statusDetails s;
     step_attachments := None |}.

(** Two records that differ at most in their attachments. *)
Definition same_record (r r' : result) : Prop :=
  uuid r' = uuid r /\ start r' = start r /\ stop r' = stop r
  /\ result_status r' = result_status r /\ statusDetails r' = statusDetails r
  /\ map without_attachments (steps r') = map without_attachments (steps r).

(** The width of the window of a record, in milliseconds. *)
Definition duration_ms (r : result) : Z := (stop r - start r)%Z.


(** The step names a case is given: the steps of its flow file. *)
Definition step_names_of (w : world) (c : case) : list string :=
  Flow.steps_from_flow_yaml (ET.lookup (flow_name c) (flows w)).



(** Every character of [s] satisfies [p]. *)
Fixpoint every (p : ascii -> bool) (s : string) : bool :=
  match s with
  | EmptyString => true
  | String c s' => p c && every p s'
  end.



(** A candidate that the correlator passes over: it is too short, or no
    step contains it. *)
Definition passed_over (step_names : list string) (part : string) : Prop :=
  (String.length part <= 2)%nat
  \/ forall step_name, In step_name step_names -> ~ occurs_in part step_name.

(** A candidate that selects the step [idx]: it is longer than two
    characters and [idx] is the first step that contains it. *)
Definition selects (step_names : list string) (part : string) (idx : nat) : Prop :=
  (2 < String.length part)%nat
  /\ (exists step_name,
        nth_error step_names idx = Some step_name /\ occurs_in part step_name)
  /\ (forall j step_name,
        (j < idx)%nat -> nth_error step_names j = Some step_name ->
        ~ occurs_in part step_name).

(** None of the report files exists. *)
Definition no_report_files (w : world) : Prop :=
  forall rf, In rf REPORT_TO_FLOW_ORDER -> ET.lookup (fst rf) (reports w) = None.

(** ** Sample inputs *)

Module Samples.
Import PyChar PyStr.

(** The flow of the round-trip scenario, every command a list item. *)
Definition login_flow : string :=
  unlines ["---";
           "- launchApp:";
           "- tapOn:";
           "    id: " ++ quoted "login-button";
           "- assertVisible:";
           "    text: " ++ quoted "Welcome"].

(** The same flow with [launchApp:] written without the dash. *)
Definition login_flow_bare : string :=
  unlines ["---";
           "launchApp:";
           "- tapOn:";
           "    id: " ++ quoted "login-button";
           "- assertVisible:";
           "    text: " ++ quoted "Welcome"].

Definition scenario_steps : list string :=
  ["Launch app (clear state)"; "Tap: login-button"; "Assert visible: Welcome"].

Definition marker (tag : string) (attrs : list (string * string))
           (body : option string) : ET.element :=
  ET.Element tag attrs body [].

Definition testcase (attrs : list (string * string)) (markers : list ET.element)
  : ET.element :=
  ET.Element "testcase" attrs None markers.

Definition suite (tcs : list ET.element) : ET.element :=
  ET.Element "testsuite" [("name", "Test Suite")] None tcs.

(** A test case with a failure marker and no status attribute. *)
Definition tc_marker_only : ET.element :=
  testcase [("name", "login"); ("time", "1")]
           [marker "failure" [("message", "Element not found")] None].

(** A test case with a failure marker and [status] set to [SUCCESS]. *)
Definition tc_marker_success : ET.element :=
  testcase [("name", "login"); ("status", "SUCCESS"); ("time", "1")]
           [marker "failure" [("message", "Element not found")] None].

(** A failure marker with body text and no message attribute. *)
Definition marker_body_only : ET.element :=
  marker "failure" [] (Some "boom").

Definition tc_body_only : ET.element :=
  testcase [("name", "login"); ("status", "FAILURE"); ("time", "1")]
           [marker_body_only].

(** A failure whose message quotes the text of the second step. *)
Definition tc_quoting : ET.element :=
  testcase [("name", "login"); ("status", "FAILURE"); ("time", "1")]
           [marker "failure"
              [("message", "Assertion is false: " ++ quoted "Tap" ++ " is visible")]
              (Some "at step")].

Definition tc_passing : ET.element :=
  testcase [("name", "browse"); ("status", "SUCCESS"); ("time", "0.5")] [].

Definition ids (n : nat) : string :=
  match n with
  | 0%nat => "id0" | 1%nat => "id1" | 2%nat => "id2" | 3%nat => "id3"
  | _ => "idN"
  end.

Definition shot : entry :=
  {| path := "2026/Shot.PNG"; is_file := true; st_mtime := 5 |}.

Definition older_shot : entry :=
  {| path := "older.jpg"; is_file := true; st_mtime := 3 |}.


Definition notes : entry :=
  {| path := "notes.txt"; is_file := true; st_mtime := 9 |}.

Definition world_of (tcs : list ET.element) (flow : option string)
           (shots : option (list entry)) : world :=
  {| reports := [("assets_report", Document (suite tcs))];
     flows := match flow with
              | Some text => [("assets_test.yaml", text)]
              | None => []
              end;
     output_dirs := match shots with
                    | Some fs => [("maestro-assets", fs)]
                    | None => []
                    end;
     created := [];
     now_ms := 100000;
     uuid4 := ids;
     uuid_calls := 0 |}.

(** No report file at all. *)
Definition empty_world : world :=
  {| reports := []; flows := [("assets_test.yaml", login_flow)];
     output_dirs := []; created := []; now_ms := 100000;
     uuid4 := ids; uuid_calls := 0 |}.

(** A failed case without flow file, with a screenshot to attach. *)
Definition stepless_failure : world :=
  world_of [tc_body_only] None (Some [shot]).

(** A failed case and a passed one, on the three-step flow. *)
Definition two_cases : world :=
  world_of [tc_quoting; tc_passing] (Some login_flow) (Some [older_shot; notes; shot]).

Definition quoting_case : case :=
  {| report_name := "assets_report"; flow_name := "assets_test.yaml";
     case_name := "login"; case_status := failed; time_sec := 1;
     status_details :=
       Some {| message := "Assertion is false: " ++ quoted "Tap" ++ " is visible";
               trace := "at step" |} |}.


(** The world after the quoting case has been emitted on the window that
    starts at 98500. *)
Definition after_quoting : world :=
  snd (Emitter.emit_case 98500 quoting_case two_cases).

(** The cases that the collector reads from [two_cases], and the worlds
    after the collection and after the whole run. *)
Definition collected_cases : list case :=
  match fst (Collector.collect two_cases) with
  | Ok cases => cases
  | Raise _ => []
  end.

Definition after_collection : world := snd (Collector.collect two_cases).

Definition after_run : world := snd (junit_to_allure_results two_cases).

(** A failed case without flow file and without screenshot. *)
Definition stepless_without_screenshot : world :=
  world_of [tc_body_only] None None.

End Samples.

(** ** Further notions *)

(** What a run of characters adds to the captures. *)
Fixpoint eat_all (t : string) (k : Re.captures) : Re.captures :=
  match t with
  | EmptyString => k
  | String c t' => eat_all t' (Re.eat c k)
  end.

(** What a run may do to the world: the flow files, the output
    directories, the clock and the identifiers stay; written files are
    added to the log; a report file stays as it is or, when it is one of
    the table, is deleted. *)
Definition evolves (w w' : world) : Prop :=
  flows w' = flows w
  /\ output_dirs w' = output_dirs w
  /\ now_ms w' = now_ms w
  /\ uuid4 w' = uuid4 w
  /\ (uuid_calls w <= uuid_calls w')%nat
  /\ (exists new, created w' = (new ++ created w)%list)
  /\ (forall key,
         ET.lookup key (reports w') = ET.lookup key (reports w)
         \/ (ET.lookup key (reports w') = None
             /\ exists flow, In (key, flow) REPORT_TO_FLOW_ORDER)).

(** Every run of [m] lets the world evolve. *)
Definition framed {A : Type} (m : M A) : Prop :=
  forall w o w', m w = (o, w') -> evolves w w'.

(** The world after one identifier has been drawn. *)
Definition after_uuid (w : world) : world :=
  {| reports := reports w; flows := flows w; output_dirs := output_dirs w;
     created := created w; now_ms := now_ms w;
     uuid4 := uuid4 w; uuid_calls := S (uuid_calls w) |}.

(** The record of a case before the screenshot is attached. *)
Definition initial_record (base : Z) (c : case) (w : world) : result :=
  {| uuid := uuid4 w (uuid_calls w);
     historyId := "Test Suite:" ++ case_name c ++ "#" ++ case_name c;
     fullName := "Test Suite:" ++ case_name c;
     name := case_name c;
     result_status := case_status c;
     start := base;
     stop := (base + PyNum.int (time_sec c * 1000)%Q)%Z;
     labels := [("suite", "Test Suite"); ("testClass", case_name c);
                ("package", case_name c)];
     steps := Emitter.step_objects base c (step_names_of w c);
     statusDetails :=
       if status_eqb (case_status c) failed then status_details c else None;
     attachments := None |}.

(** The attachment of the screenshot [src], named after the identifier
    [att_uuid]. *)
Definition screenshot_of (att_uuid : string) (src : entry) : attachment :=
  {| att_name := "Screenshot (failure)";
     att_source :=
       att_uuid ++ "-attachment" ++ PyStr.lower (Screenshot.suffix (path src));
     att_type := Screenshot.mime_of (PyStr.lower (Screenshot.suffix (path src))) |}.

(** ** Further sample inputs *)

Module MoreSamples.
Import PyChar PyStr Samples.

(** A flow file with two lines of metadata above the separator. *)
Definition flow_with_header : string :=
  unlines ["appId: com.example";
           "- launchApp:";
           "  ---  ";
           "# Log in";
           "- tapOn: Sign in"].

(** A second report that cannot be parsed. *)
Definition broken_world : world :=
  {| reports := [("assets_report", Document (suite [tc_passing]));
                 ("dashboard_report", Malformed);
                 ("notes", Malformed)];
     flows := [("assets_test.yaml", login_flow)];
     output_dirs := []; created := []; now_ms := 100000;
     uuid4 := ids; uuid_calls := 0 |}.

(** A case that failed by its status attribute alone. *)
Definition undetailed_case : case :=
  {| report_name := "assets_report"; flow_name := "assets_test.yaml";
     case_name := "checkout"; case_status := failed; time_sec := 2;
     status_details := None |}.


(** Two images with the same, latest, modification time. *)
Definition twin_a : entry :=
  {| path := "run/a.png"; is_file := true; st_mtime := 7 |}.

Definition twin_b : entry :=
  {| path := "run/b.jpg"; is_file := true; st_mtime := 7 |}.

End MoreSamples.

(** * Properties *)

(** ** Flow step extractor *)

Section FlowExtractor.
Import PyChar PyStr Flow Samples.

(** A [tapOn] item with nothing after the colon is the bare step [Tap],
    whatever the lines below it say. *)
Lemma bare_tapOn_line (following : list string) :
  scan_lines true ("- tapOn:" :: following) = "Tap" :: scan_lines true following.
Proof. reflexivity. Qed.

(** C4, as the code behaves: on the flow of the scenario the extractor
    returns the three steps Launch app (clear state), Tap, and
    Assert visible: Welcome.  The identifier on the line below [tapOn]
    is not read: the second step is the bare Tap. *)
Theorem C4_scenario_steps_of_the_code :
  steps_from_flow_yaml (Some login_flow)
  = ["Launch app (clear state)"; "Tap"; "Assert visible: Welcome"].
Proof. vm_compute. reflexivity. Qed.

(** C4 as stated fails: the scenario flow does not yield the step
    Tap: login-button, with [launchApp:] as a list item or without
    the dash. *)
Lemma C4_scenario_counterexample :
  steps_from_flow_yaml (Some login_flow) <> scenario_steps
  /\ steps_from_flow_yaml (Some login_flow_bare) <> scenario_steps.
Proof. split; vm_compute; discriminate. Qed.

End FlowExtractor.

(** ** The monad *)

Section Monad.

Lemma bind_ok {A B : Type} (m : M A) (k : A -> M B) (w w' : world) (b : B) :
  bind m k w = (Ok b, w') ->
  exists a w1, m w = (Ok a, w1) /\ k a w1 = (Ok b, w').
Proof.
  unfold bind. destruct (m w) as [[a|e] w1]; intros H.
  - exists a, w1. split; [reflexivity | exact H].
  - discriminate.
Qed.

(** A property of the world that every iteration keeps is kept by the
    loop, whether it ends or raises. *)
Lemma for_fold_keeps {A S : Type} (P : world -> Prop) (body : S -> A -> M S) :
  (forall s x w o w', P w -> body s x w = (o, w') -> P w') ->
  forall xs s w o w', P w -> for_fold xs s body w = (o, w') -> P w'.
Proof.
  intros Hbody xs. induction xs as [|x xs IH]; intros s w o w' Hw Hrun.
  - cbn in Hrun. inversion Hrun; subst. exact Hw.
  - cbn in Hrun. unfold bind in Hrun.
    destruct (body s x w) as [[s1|e] w1] eqn:Hx.
    + apply (IH s1 w1 o w'); [eapply Hbody; eauto | exact Hrun].
    + inversion Hrun; subst. eapply Hbody; eauto.
Qed.

End Monad.

(** ** Report collector *)

Section ReportCollector.
Import PyChar PyStr Collector Samples.

(** What the status derivation does with a marker: the marker decides only
    when the status attribute is present and reads neither success nor
    failure. *)
Lemma derive_status_cases (tc : ET.element) (has_failure_node : bool) :
  let st := lower (or_else (ET.or_empty (ET.get tc "status")) "SUCCESS") in
  derive_status tc has_failure_node =
    if String.eqb st "success" then passed
    else if String.eqb st "failure" then failed
    else if has_failure_node then failed else passed.
Proof. reflexivity. Qed.

Lemma derive_status_absent (tc : ET.element) (has_failure_node : bool) :
  ET.get tc "status" = None -> derive_status tc has_failure_node = passed.
Proof. unfold derive_status. intros ->. reflexivity. Qed.

(** C1, the code at the failing inputs: a test case with a failure marker
    and no status attribute, and one with a failure marker and the status
    attribute SUCCESS, are both collected with their failure detail and
    the status passed. *)
Theorem C1_marker_does_not_override_success :
  (exists c d, case_of "assets_report" "assets_test.yaml" tc_marker_only = Ok c
               /\ status_details c = Some d /\ case_status c = passed)
  /\ (exists c d, case_of "assets_report" "assets_test.yaml" tc_marker_success = Ok c
                  /\ status_details c = Some d /\ case_status c = passed).
Proof.
  split; eexists; eexists; (split; [vm_compute; reflexivity | split; reflexivity]).
Qed.

(** C7, as the code behaves: the detail comes from the first failure
    marker, or else the first error marker.  Its message is the stripped
    message attribute, else the stripped body, else Test failed.  Its
    trace is the stripped body unless the body equals the stripped message
    attribute, and is empty then.  Message and trace are equal exactly
    when the attribute is empty and the body is not. *)
Theorem C7_failure_detail_of_the_code (tc : ET.element) (d : details) :
  failure_detail tc = Some d ->
  exists node,
    (ET.find tc "failure" = Some node
     \/ (ET.find tc "failure" = None /\ ET.find tc "error" = Some node))
    /\ let msg := strip (ET.or_empty (ET.get node "message")) in
       let body := strip (ET.or_empty (ET.text node)) in
       message d = (if negb (empty msg) then msg
                    else if negb (empty body) then body
                    else "Test failed")
       /\ trace d = (if String.eqb body msg then EmptyString else body)
       /\ (message d = trace d <-> msg = EmptyString /\ body <> EmptyString).
Proof.
  unfold failure_detail. cbn [first_marker]. intros H.
  assert (Hnode : exists node,
             (ET.find tc "failure" = Some node
              \/ (ET.find tc "failure" = None /\ ET.find tc "error" = Some node))
             /\ d = detail_of_marker node).
  { destruct (ET.find tc "failure") as [n|] eqn:Hf.
    - exists n. inversion H. split; [left|]; reflexivity.
    - destruct (ET.find tc "error") as [n|] eqn:He; [|discriminate].
      exists n. inversion H. split; [right; split|]; reflexivity. }
  destruct Hnode as (node & Hfind & ->). exists node. split; [exact Hfind|].
  cbn zeta. unfold detail_of_marker. cbn [message trace].
  set (msg := strip (ET.or_empty (ET.get node "message"))).
  set (body := strip (ET.or_empty (ET.text node))).
  unfold or_else.
  destruct (String.eqb_spec body msg) as [E|E]; cbn [negb];
    destruct msg as [|a msg']; destruct body as [|b body']; cbn [empty negb];
    (split; [reflexivity | split; [reflexivity|]]);
    split; intros; intuition (try discriminate; try congruence).
Qed.

Lemma C7_failure_detail_witness :
  failure_detail tc_body_only
  = Some {| message := "boom"; trace := "boom" |}
  /\ exists node,
    (ET.find tc_body_only "failure" = Some node
     \/ (ET.find tc_body_only "failure" = None
         /\ ET.find tc_body_only "error" = Some node))
    /\ let msg := strip (ET.or_empty (ET.get node "message")) in
       let body := strip (ET.or_empty (ET.text node)) in
       "boom" = (if negb (empty msg) then msg
                 else if negb (empty body) then body
                 else "Test failed")
       /\ "boom" = (if String.eqb body msg then EmptyString else body)
       /\ ("boom" = "boom" <-> msg = EmptyString /\ body <> EmptyString).
Proof.
  split; [reflexivity|].
  apply (C7_failure_detail_of_the_code tc_body_only
           {| message := "boom"; trace := "boom" |}).
  reflexivity.
Defined.

(** C7 as stated fails: a marker with body text and no message attribute
    gives a message equal to the body, yet the trace is the body too and
    not empty, so the same text is displayed twice. *)
Lemma C7_duplicate_counterexample :
  ~ (forall node : ET.element,
        let d := detail_of_marker node in
        let body := strip (ET.or_empty (ET.text node)) in
        trace d = if String.eqb body (message d) then EmptyString else body).
Proof.
  intros H. specialize (H marker_body_only). vm_compute in H. discriminate.
Qed.

Lemma unlink_report_created (key : string) (w : world) (o : outcome unit) (w' : world) :
  unlink_report key w = (o, w') -> created w' = created w.
Proof. unfold unlink_report, modify. intros H. inversion H. reflexivity. Qed.

Lemma collect_report_created (rf : string * string) (w : world)
      (o : outcome (list case)) (w' : world) :
  collect_report rf w = (o, w') -> created w' = created w.
Proof.
  destruct rf as [report flow]. unfold collect_report, bind, gets, lift, raise, ret.
  destruct (ET.lookup report (reports w)) as [[|root]|].
  - intros H. inversion H. reflexivity.
  - destruct (cases_of report flow (testcases_of root)).
    + cbn. intros H. inversion H. reflexivity.
    + intros H. inversion H. reflexivity.
  - intros H. inversion H. reflexivity.
Qed.

(** The collector writes nothing. *)
Lemma collect_created (w : world) (o : outcome (list case)) (w' : world) :
  collect w = (o, w') -> created w' = created w.
Proof.
  unfold collect. intros H.
  refine (for_fold_keeps (fun w1 => created w1 = created w) _ _ _ _ _ _ _ eq_refl H).
  intros s x w1 o1 w2 Hw1 Hbody. unfold bind, ret in Hbody.
  destruct (collect_report x w1) as [[cs|e] w3] eqn:Hr;
    inversion Hbody; subst;
    rewrite (collect_report_created _ _ _ _ Hr); exact Hw1.
Qed.

Lemma collect_without_reports (w : world) :
  no_report_files w -> collect w = (Ok [], w).
Proof.
  intros H. unfold collect, REPORT_TO_FLOW_ORDER.
  assert (H1 := H ("assets_report", "assets_test.yaml")).
  assert (H2 := H ("dashboard_report", "dashboard_test.yaml")).
  assert (H3 := H ("profile_report", "profile_test.yaml")).
  unfold REPORT_TO_FLOW_ORDER in H1, H2, H3. cbn [In fst] in H1, H2, H3.
  cbv [for_fold bind collect_report gets ret].
  rewrite H1 by tauto. rewrite H2 by tauto. rewrite H3 by tauto. reflexivity.
Qed.

(** C8: when the collector ends with no test case, and in particular when
    no report file exists, the run ends without an exception right after
    the collection, and nothing has been written: no result record and no
    attachment. *)
Theorem C8_no_cases_no_writes (w w1 : world) :
  collect w = (Ok [], w1) \/ (no_report_files w /\ w1 = w) ->
  junit_to_allure_results w = (Ok tt, w1)
  /\ created w1 = created w
  /\ emitted w1 = emitted w
  /\ copied w1 = copied w.
Proof.
  intros H.
  assert (Hc : collect w = (Ok [], w1)).
  { destruct H as [H | [H ->]]; [exact H | apply collect_without_reports, H]. }
  assert (Hw := collect_created _ _ _ Hc).
  unfold junit_to_allure_results, bind, emitted, copied. rewrite Hc, Hw.
  repeat split.
Qed.

Lemma C8_no_cases_witness :
  junit_to_allure_results empty_world = (Ok tt, empty_world)
  /\ created empty_world = created empty_world
  /\ emitted empty_world = emitted empty_world
  /\ copied empty_world = copied empty_world.
Proof.
  apply (C8_no_cases_no_writes empty_world empty_world).
  left. vm_compute. reflexivity.
Defined.

End ReportCollector.

(** ** Strings and patterns *)

Section Strings.
Import PyChar PyStr.

Lemma startswith_prefix (p s : string) :
  startswith p s = true <-> exists b, s = p ++ b.
Proof.
  revert s. induction p as [|a p IH]; intros s; cbn.
  - split; [intros _; exists s; reflexivity | reflexivity].
  - destruct s as [|c s].
    + split; [discriminate | intros [b Hb]; discriminate].
    + rewrite andb_true_iff, IH. split.
      * intros [Hac [b ->]]. apply Ascii.eqb_eq in Hac. subst. exists b. reflexivity.
      * intros [b Hb]. inversion Hb; subst. split; [apply Ascii.eqb_refl | exists b; reflexivity].
Qed.

(** [contains] decides the literal substring relation. *)
Lemma contains_occurs (p s : string) :
  contains p s = true <-> occurs_in p s.
Proof.
  unfold occurs_in. induction s as [|c s IH].
  - cbn. rewrite orb_false_r. destruct p as [|a p]; cbn.
    + split; [intros _; exists EmptyString, EmptyString; reflexivity | reflexivity].
    + split; [discriminate|]. intros (a0 & b & H).
      destruct a0; cbn in H; discriminate.
  - cbn [contains]. rewrite orb_true_iff, startswith_prefix, IH. split.
    + intros [[b ->] | (a & b & ->)].
      * exists EmptyString, b. reflexivity.
      * exists (String c a), b. reflexivity.
    + intros (a & b & H). destruct a as [|c' a]; cbn in H.
      * left. exists b. exact H.
      * right. inversion H; subst. exists a, b. reflexivity.
Qed.

Lemma contains_false (p s : string) :
  contains p s = false <-> ~ occurs_in p s.
Proof.
  rewrite <- contains_occurs. destruct (contains p s); split; congruence.
Qed.

Lemma append_assoc (a b c : string) : (a ++ b) ++ c = a ++ b ++ c.
Proof. induction a as [|x a IH]; cbn; [reflexivity | now rewrite IH]. Qed.

Lemma append_empty_r (a : string) : a ++ EmptyString = a.
Proof. induction a as [|x a IH]; cbn; [reflexivity | now rewrite IH]. Qed.

Lemma every_append (p : ascii -> bool) (a b : string) :
  every p (a ++ b) = every p a && every p b.
Proof.
  induction a as [|x a IH]; cbn; [reflexivity|].
  rewrite IH. apply andb_assoc.
Qed.

End Strings.

(** ** The matcher on the patterns of the script *)

Section Patterns.
Import PyChar PyStr.

Lemma run_star_cons (p : ascii -> bool) (r : Re.regex) (d : ascii) (s : string) (k : Re.captures) :
  Re.run (Re.Star p :: r) (String d s) k
  = if p d then
      match Re.run (Re.Star p :: r) s (Re.eat d k) with
      | Some m => Some m
      | None => Re.run r (String d s) k
      end
    else Re.run r (String d s) k.
Proof. reflexivity. Qed.

Lemma run_star_empty (p : ascii -> bool) (r : Re.regex) (k : Re.captures) :
  Re.run (Re.Star p :: r) EmptyString k = Re.run r EmptyString k.
Proof. reflexivity. Qed.

Lemma run_chr (c : ascii) (r : Re.regex) (s : string) (k : Re.captures) :
  Re.run (Re.Chr c :: r) s k
  = match s with
    | String d s' => if Ascii.eqb c d then Re.run r s' (Re.eat d k) else None
    | EmptyString => None
    end.
Proof. reflexivity. Qed.

Lemma run_one (p : ascii -> bool) (r : Re.regex) (s : string) (k : Re.captures) :
  Re.run (Re.One p :: r) s k
  = match s with
    | String d s' => if p d then Re.run r s' (Re.eat d k) else None
    | EmptyString => None
    end.
Proof. reflexivity. Qed.

Lemma run_open (r : Re.regex) (s : string) (k : Re.captures) :
  Re.run (Re.Open :: r) s k = Re.run r s (Re.open k).
Proof. reflexivity. Qed.

Lemma run_close (r : Re.regex) (s : string) (k : Re.captures) :
  Re.run (Re.Close :: r) s k = Re.run r s (Re.close k).
Proof. reflexivity. Qed.

Lemma run_done (s : string) (k : Re.captures) :
  Re.run [] s k = Some (Re.closed k, s).
Proof. reflexivity. Qed.






End Patterns.

(** ** Failure correlator *)

Section FailureCorrelator.
Import PyChar PyStr.
Import Correlator.
Local Open Scope Z_scope.

(** The inner loop finds the first step that contains the candidate. *)
Lemma first_containing_some (part : string) (step_names : list string) :
  forall (i idx : Z),
    first_containing part i step_names = Some idx ->
    exists k : nat,
      idx = i + Z.of_nat k
      /\ (exists step_name,
             nth_error step_names k = Some step_name /\ occurs_in part step_name)
      /\ (forall j step_name,
             (j < k)%nat -> nth_error step_names j = Some step_name ->
             ~ occurs_in part step_name).
Proof.
  induction step_names as [|n ns IH]; intros i idx H; cbn in H; [discriminate|].
  destruct (contains part n) eqn:Hc.
  - inversion H; subst. exists 0%nat. split; [lia|]. split.
    + exists n. split; [reflexivity | apply contains_occurs, Hc].
    + intros j sn Hj. lia.
  - apply IH in H. destruct H as (k & -> & Hk & Hbefore).
    exists (S k). split; [lia|]. split; [exact Hk|].
    intros [|j] sn Hj Hn; cbn in Hn.
    + inversion Hn; subst. apply contains_false, Hc.
    + apply (Hbefore j sn); [lia | exact Hn].
Qed.

Lemma first_containing_none (part : string) (step_names : list string) :
  forall i : Z,
    first_containing part i step_names = None ->
    forall step_name, In step_name step_names -> ~ occurs_in part step_name.
Proof.
  induction step_names as [|n ns IH]; intros i H sn Hin; [destruct Hin|].
  cbn in H. destruct (contains part n) eqn:Hc; [discriminate|].
  destruct Hin as [<- | Hin]; [apply contains_false, Hc | eapply IH; eauto].
Qed.

(** The outer loop: the first candidate that selects a step decides; the
    default is kept when every candidate is passed over. *)
Lemma scan_parts_cases (step_names : list string) (default : Z) (parts : list string) :
  (exists before part after idx,
      parts = (before ++ part :: after)%list
      /\ Forall (passed_over step_names) before
      /\ selects step_names part idx
      /\ scan_parts parts step_names default = Z.of_nat idx)
  \/ (Forall (passed_over step_names) parts
      /\ scan_parts parts step_names default = default).
Proof.
  induction parts as [|p ps IH].
  - right. split; [constructor | reflexivity].
  - cbn [scan_parts].
    assert (Hskip : passed_over step_names p ->
              (exists before part after idx,
                  p :: ps = (before ++ part :: after)%list
                  /\ Forall (passed_over step_names) before
                  /\ selects step_names part idx
                  /\ scan_parts ps step_names default = Z.of_nat idx)
              \/ (Forall (passed_over step_names) (p :: ps)
                  /\ scan_parts ps step_names default = default)).
    { intros Hp.
      destruct IH as [(b & q & a & idx & -> & Hb & Hs & Hr) | [Hall Hr]].
      - left. exists (p :: b), q, a, idx.
        split; [reflexivity|]. split; [constructor; assumption|].
        split; [exact Hs | exact Hr].
      - right. split; [constructor; assumption | exact Hr]. }
    destruct (2 <? String.length p)%nat eqn:Hlen.
    + destruct (first_containing p 0 step_names) as [idx|] eqn:Hf.
      * left. apply first_containing_some in Hf. destruct Hf as (k & -> & Hk & Hb).
        exists [], p, ps, k.
        split; [reflexivity|]. split; [constructor|].
        split; [|reflexivity].
        split; [apply Nat.ltb_lt, Hlen | split; assumption].
      * apply Hskip. right. eapply first_containing_none, Hf.
    + apply Hskip. left. apply Nat.ltb_ge in Hlen. exact Hlen.
Qed.


End FailureCorrelator.

(** ** Screenshot locator and copier *)

Section ScreenshotCopier.
Import PyChar PyStr Screenshot Samples.

Lemma gt_true (a b : Q) : PyNum.gt a b = true <-> (b < a)%Q.
Proof.
  unfold PyNum.gt. rewrite negb_true_iff. split.
  - intros H. apply Qnot_le_lt. intros Hle. apply Qle_bool_iff in Hle. congruence.
  - intros H. destruct (Qle_bool a b) eqn:E; [|reflexivity].
    apply Qle_bool_iff in E. apply Qlt_not_le in H. contradiction.
Qed.

Lemma gt_false (a b : Q) : PyNum.gt a b = false <-> (a <= b)%Q.
Proof.
  unfold PyNum.gt. rewrite negb_false_iff. apply Qle_bool_iff.
Qed.






End ScreenshotCopier.

(** ** Numbers *)

Section Numbers.
Local Open Scope Z_scope.


Lemma int_nonneg (x : Q) : (0 <= x)%Q -> 0 <= PyNum.int x.
Proof.
  destruct x as [n p]. unfold Qle, PyNum.int. cbn [Qnum Qden]. intros H.
  apply Z.quot_pos; lia.
Qed.



(** With a duration that is not negative, the width of a step is the
    quotient of the window of the test by the number of steps. *)
Lemma step_duration_quotient (t : Q) (names : list string) :
  (0 <= t)%Q -> (1 <= List.length names)%nat ->
  Emitter.step_duration t names
  = PyNum.int (t * 1000)%Q / Z.of_nat (List.length names).
Proof.
  intros Ht Hk. unfold Emitter.step_duration, Emitter.len.
  rewrite Z.max_l by lia.
  destruct t as [n p]. unfold Qle in Ht. cbn [Qnum Qden] in Ht.
  remember (Z.of_nat (List.length names)) as K eqn:HK.
  destruct K as [|k|k]; try lia.
  unfold PyNum.int, Qdiv, Qmult, Qinv, inject_Z. cbn [Qnum Qden].
  rewrite !Z.quot_div_nonneg by lia.
  rewrite Z.div_div by lia. f_equal; lia.
Qed.

End Numbers.

(** ** Result emitter *)

Section ResultEmitter.
Import PyChar PyStr Emitter Samples.
Local Open Scope Z_scope.

Lemma step_objects_from_length (start_ms d : Z) (st : status) (sd : option details)
      (f : Z) (names : list string) :
  forall i, List.length (step_objects_from start_ms d st sd f i names) = List.length names.
Proof.
  induction names as [|n ns IH]; intros i; cbn; [reflexivity | now rewrite IH].
Qed.

(** The record of the step at position [k] of the loop started at [i]. *)
Lemma step_objects_from_nth (start_ms d : Z) (st : status) (sd : option details)
      (f : Z) (names : list string) :
  forall (i : Z) (k : nat) (s : step),
    nth_error (step_objects_from start_ms d st sd f i names) k = Some s ->
    let j := i + Z.of_nat k in
    nth_error names k = Some (step_name s)
    /\ step_start s = start_ms + j * d
    /\ step_stop s = start_ms + j * d + d
    /\ step_status s =
         (if negb (status_eqb st failed) then passed
          else if j =? f then failed
          else if f <? j then skipped else passed)
    /\ step_statusDetails s = (if status_eqb st failed && (j =? f) then sd else None)
    /\ step_attachments s = None.
Proof.
  induction names as [|n ns IH]; intros i k s H; [destruct k; discriminate|].
  destruct k as [|k]; cbn in H.
  - inversion H; subst; clear H. cbn. rewrite Z.add_0_r. repeat split.
  - apply IH in H. cbn zeta in H |- *.
    replace (i + Z.of_nat (S k)) with (i + 1 + Z.of_nat k) by lia. exact H.
Qed.

Lemma step_objects_from_plain (start_ms d : Z) (st : status) (sd : option details)
      (f : Z) (names : list string) :
  forall i,
    map without_attachments (step_objects_from start_ms d st sd f i names)
    = step_objects_from start_ms d st sd f i names.
Proof.
  induction names as [|n ns IH]; intros i; cbn; [reflexivity|].
  rewrite IH. reflexivity.
Qed.

Lemma update_nth_plain (att : attachment) (l : list step) :
  forall n, map without_attachments (update_nth n (attach_to_step att) l)
            = map without_attachments l.
Proof.
  induction l as [|x l IH]; intros n; [destruct n; reflexivity|].
  destruct n as [|n]; cbn; [reflexivity | now rewrite IH].
Qed.

Lemma update_item_plain (att : attachment) (l l' : list step) (i : Z) :
  update_item l i (attach_to_step att) = Ok l' ->
  map without_attachments l' = map without_attachments l.
Proof.
  unfold update_item.
  destruct ((_ <? 0) || _); [discriminate|].
  intros H. inversion H. apply update_nth_plain.
Qed.

(** An index below zero on an empty list: the assignment raises. *)
Lemma update_item_empty {A : Type} (i : Z) (f : A -> A) :
  update_item [] i f = Raise IndexError.
Proof.
  unfold update_item, len. cbn [List.length Z.of_nat].
  destruct (i <? 0) eqn:Hi.
  - rewrite Z.add_0_r, Hi. reflexivity.
  - apply Z.ltb_ge in Hi. destruct (0 <=? i) eqn:E.
    + now rewrite orb_true_r.
    + apply Z.leb_gt in E. lia.
Qed.

Lemma same_record_refl (r : result) : same_record r r.
Proof. repeat split. Qed.

Lemma with_screenshot_same (att : attachment) (l : list step) (r : result) :
  map without_attachments l = map without_attachments (steps r) ->
  same_record r (with_screenshot att l r).
Proof. intros H. repeat split. exact H. Qed.

(** Attaching the screenshot writes no result record and changes only the
    attachments of the record. *)
Lemma attach_screenshot_ok (c : case) (f : Z) (r r' : result) (w w' : world) :
  attach_screenshot c f r w = (Ok r', w') ->
  same_record r r'
  /\ flat_map record_of (created w') = flat_map record_of (created w).
Proof.
  unfold attach_screenshot.
  destruct (case_status c);
    try (intros H; inversion H; subst; split; [apply same_record_refl | reflexivity]).
  destruct (ET.lookup (report_name c) REPORT_TO_MAESTRO_DIR) as [dir|];
    [|intros H; inversion H; subst; split; [apply same_record_refl | reflexivity]].
  unfold bind, gets, fresh_uuid, Screenshot.copy_screenshot_to_allure.
  destruct (Screenshot.find_latest_screenshot _) as [src|].
  - unfold bind, write_file, modify, ret, lift. cbn [created].
    destruct (f <? len (steps r)).
    + destruct (update_item (steps r) f _) as [l|e] eqn:Hu; [|discriminate].
      intros H. inversion H; subst. split; [|reflexivity].
      apply with_screenshot_same. eapply update_item_plain, Hu.
    + intros H. inversion H; subst. split; [|reflexivity].
      apply with_screenshot_same. reflexivity.
  - unfold ret. intros H. inversion H; subst.
    split; [apply same_record_refl | reflexivity].
Qed.

(** One iteration of the emitting loop that ends without exception has
    written exactly one record, on the window that starts at the cursor. *)
Lemma emit_case_ok (base : Z) (c : case) (w w' : world) (z : Z) :
  emit_case base c w = (Ok z, w') ->
  exists r,
    emitted w' = (emitted w ++ [r])%list
    /\ z = base + PyNum.int (time_sec c * 1000)%Q
    /\ start r = base /\ stop r = z
    /\ result_status r = case_status c
    /\ statusDetails r
       = (if status_eqb (case_status c) failed then status_details c else None)
    /\ map without_attachments (steps r)
       = step_objects base c (step_names_of w c).
Proof.
  unfold emit_case. intros H.
  apply bind_ok in H. destruct H as (flow & w1 & Hflow & H).
  unfold gets in Hflow. inversion Hflow; subst w1 flow; clear Hflow.
  apply bind_ok in H. destruct H as (uid & w2 & Huid & H).
  apply bind_ok in H. destruct H as (r & w3 & Hatt & H).
  apply bind_ok in H. destruct H as ([] & w4 & Hwrite & H).
  unfold ret in H. inversion H; subst z w4; clear H.
  unfold write_file, modify in Hwrite. inversion Hwrite; subst w'; clear Hwrite.
  apply attach_screenshot_ok in Hatt.
  destruct Hatt as ((Hu & Hs & Hp & Hst & Hsd & Hsteps) & Hcreated).
  unfold fresh_uuid in Huid. inversion Huid; subst uid w2; clear Huid.
  cbn [created] in Hcreated.
  exists r. unfold emitted. cbn [created flat_map record_of snd].
  rewrite Hcreated. cbn [app rev].
  cbn [start stop result_status statusDetails steps] in Hs, Hp, Hst, Hsd, Hsteps.
  repeat split; try assumption.
  rewrite Hsteps. unfold step_objects, step_names_of.
  apply step_objects_from_plain.
Qed.

End ResultEmitter.

(** ** Step records *)

Section StepRecords.
Import PyChar PyStr Emitter Samples.
Local Open Scope Z_scope.

(** With at least one step the failure index is the index of a step. *)
Lemma failed_step_index_range (st : status) (sd : option details) (names : list string) :
  (1 <= List.length names)%nat ->
  exists f : nat,
    Correlator.failed_step_index st sd names = Z.of_nat f
    /\ (f < List.length names)%nat.
Proof.
  intros Hk. unfold Correlator.failed_step_index.
  assert (Hdefault : exists f : nat,
             Z.of_nat (List.length names) - 1 = Z.of_nat f
             /\ (f < List.length names)%nat).
  { exists (List.length names - 1)%nat. split; lia. }
  destruct st; try exact Hdefault.
  destruct sd as [d|]; [|exact Hdefault].
  destruct (scan_parts_cases names (Z.of_nat (List.length names) - 1)
              (Correlator.candidates d))
    as [(b & p & a & idx & _ & _ & Hsel & ->) | [_ ->]]; [|exact Hdefault].
  exists idx. split; [reflexivity|].
  destruct Hsel as (_ & (sn & Hn & _) & _).
  apply nth_error_Some. congruence.
Qed.

Lemma nth_error_plain (l : list step) (i : nat) (s : step) :
  nth_error l i = Some s ->
  nth_error (map without_attachments l) i = Some (without_attachments s).
Proof. intros H. rewrite nth_error_map, H. reflexivity. Qed.

(** C2: a case with at least one step, emitted without exception.  When
    the case passed, every step record is passed and none has a
    statusDetails.  When it failed with a failure detail, the failure
    index f is the index of a step; the steps before f are passed, step f
    is failed and has the failure detail as statusDetails, the steps after
    f are skipped. *)
Theorem C2_step_statuses (base : Z) (c : case) (w w' : world) (z : Z) :
  emit_case base c w = (Ok z, w') ->
  (1 <= List.length (step_names_of w c))%nat ->
  exists r,
    emitted w' = (emitted w ++ [r])%list
    /\ List.length (steps r) = List.length (step_names_of w c)
    /\ (case_status c = passed ->
        forall s, In s (steps r) ->
                  step_status s = passed /\ step_statusDetails s = None)
    /\ (forall d, case_status c = failed -> status_details c = Some d ->
        exists f : nat,
          Correlator.failed_step_index failed (Some d) (step_names_of w c)
          = Z.of_nat f
          /\ (f < List.length (step_names_of w c))%nat
          /\ forall i s, nth_error (steps r) i = Some s ->
               ((i < f)%nat -> step_status s = passed)
               /\ (i = f -> step_status s = failed /\ step_statusDetails s = Some d)
               /\ ((f < i)%nat -> step_status s = skipped)).
Proof.
  intros Hrun Hk. apply emit_case_ok in Hrun.
  destruct Hrun as (r & Hem & _ & _ & _ & _ & _ & Hsteps).
  exists r. split; [exact Hem|].
  assert (Hnth : forall i s, nth_error (steps r) i = Some s ->
            nth_error (step_objects base c (step_names_of w c)) i
            = Some (without_attachments s)).
  { intros i s H. rewrite <- Hsteps. apply nth_error_plain, H. }
  split; [|split].
  - rewrite <- (length_map without_attachments), Hsteps.
    apply step_objects_from_length.
  - intros Hpass s Hin. apply In_nth_error in Hin. destruct Hin as [i Hi].
    apply Hnth in Hi. unfold step_objects in Hi.
    apply step_objects_from_nth in Hi. cbn zeta in Hi.
    destruct Hi as (_ & _ & _ & Hst & Hsd & _).
    rewrite Hpass in Hst, Hsd. cbn in Hst, Hsd. split; assumption.
  - intros d Hfail Hd.
    destruct (failed_step_index_range failed (Some d) (step_names_of w c) Hk)
      as (f & Hf & Hlt).
    exists f. split; [exact Hf|]. split; [exact Hlt|].
    intros i s Hi. apply Hnth in Hi. unfold step_objects in Hi.
    apply step_objects_from_nth in Hi. cbn zeta in Hi.
    destruct Hi as (_ & _ & _ & Hst & Hsd & _).
    rewrite Hfail, Hd, Hf in Hst, Hsd. cbn [status_eqb negb andb] in Hst, Hsd.
    cbn [without_attachments step_status step_statusDetails] in Hst, Hsd.
    rewrite Z.add_0_l in Hst, Hsd.
    split; [|split].
    + intros Hlt'. rewrite Hst.
      destruct (Z.eqb_spec (Z.of_nat i) (Z.of_nat f)); [lia|].
      destruct (Z.ltb_spec (Z.of_nat f) (Z.of_nat i)); [lia | reflexivity].
    + intros ->. rewrite Hst, Hsd, Z.eqb_refl. split; reflexivity.
    + intros Hlt'. rewrite Hst.
      destruct (Z.eqb_spec (Z.of_nat i) (Z.of_nat f)); [lia|].
      destruct (Z.ltb_spec (Z.of_nat f) (Z.of_nat i)); [reflexivity | lia].
Qed.

Lemma C2_step_statuses_witness :
  emit_case 98500 quoting_case two_cases = (Ok 99500, after_quoting)
  /\ (1 <= List.length (step_names_of two_cases quoting_case))%nat
  /\ exists r,
    emitted after_quoting = (emitted two_cases ++ [r])%list
    /\ List.length (steps r) = List.length (step_names_of two_cases quoting_case)
    /\ (case_status quoting_case = passed ->
        forall s, In s (steps r) ->
                  step_status s = passed /\ step_statusDetails s = None)
    /\ (forall d, case_status quoting_case = failed ->
                  status_details quoting_case = Some d ->
        exists f : nat,
          Correlator.failed_step_index failed (Some d)
            (step_names_of two_cases quoting_case) = Z.of_nat f
          /\ (f < List.length (step_names_of two_cases quoting_case))%nat
          /\ forall i s, nth_error (steps r) i = Some s ->
               ((i < f)%nat -> step_status s = passed)
               /\ (i = f -> step_status s = failed /\ step_statusDetails s = Some d)
               /\ ((f < i)%nat -> step_status s = skipped)).
Proof.
  assert (H1 : emit_case 98500 quoting_case two_cases = (Ok 99500, after_quoting))
    by (vm_compute; reflexivity).
  assert (H2 : (1 <= List.length (step_names_of two_cases quoting_case))%nat)
    by (vm_compute; lia).
  split; [exact H1|]. split; [exact H2|].
  exact (C2_step_statuses 98500 quoting_case two_cases after_quoting 99500 H1 H2).
Defined.

(** C3, as the code behaves: a case with at least one step and a duration
    that is not negative, emitted without exception.  With K steps and d
    the quotient of the window of the test by K, step i occupies the
    interval from start + i * d to start + (i + 1) * d.  The intervals have
    the same width, each starts where the previous one stops, and the
    first starts with the test.  The last one stops at start + K * d, which
    falls short of the stop of the test by the remainder of the division;
    no step covers that remainder. *)
Theorem C3_step_intervals (base : Z) (c : case) (w w' : world) (z : Z) :
  emit_case base c w = (Ok z, w') ->
  (1 <= List.length (step_names_of w c))%nat ->
  (0 <= time_sec c)%Q ->
  exists r,
    emitted w' = (emitted w ++ [r])%list
    /\ List.length (steps r) = List.length (step_names_of w c)
    /\ let K := Z.of_nat (List.length (steps r)) in
       let d := duration_ms r / K in
       0 <= d
       /\ (forall i s, nth_error (steps r) i = Some s ->
             step_start s = start r + Z.of_nat i * d
             /\ step_stop s = start r + (Z.of_nat i + 1) * d)
       /\ start r + K * d <= stop r
       /\ stop r - (start r + K * d) = duration_ms r mod K.
Proof.
  intros Hrun Hk Ht. apply emit_case_ok in Hrun.
  destruct Hrun as (r & Hem & Hz & Hstart & Hstop & _ & _ & Hsteps).
  exists r. split; [exact Hem|].
  assert (Hlen : List.length (steps r) = List.length (step_names_of w c)).
  { rewrite <- (length_map without_attachments), Hsteps.
    apply step_objects_from_length. }
  split; [exact Hlen|]. cbn zeta. rewrite Hlen.
  set (K := Z.of_nat (List.length (step_names_of w c))).
  assert (HK : 0 < K) by (unfold K; lia).
  assert (Hdur : duration_ms r = PyNum.int (time_sec c * 1000)%Q).
  { unfold duration_ms. lia. }
  assert (Hnn : 0 <= duration_ms r).
  { rewrite Hdur. apply int_nonneg. lra. }
  assert (Hd : step_duration (time_sec c) (step_names_of w c) = duration_ms r / K).
  { rewrite Hdur. apply step_duration_quotient; assumption. }
  split; [apply Z.div_pos; lia|]. split; [|split].
  - intros i s Hi. apply nth_error_plain in Hi. rewrite Hsteps in Hi.
    unfold step_objects in Hi. apply step_objects_from_nth in Hi. cbn zeta in Hi.
    destruct Hi as (_ & Hs & Hp & _).
    cbn [without_attachments step_start step_stop] in Hs, Hp.
    rewrite Hd, Hstart in *. split; lia.
  - assert (Hm := Z.mul_div_le (duration_ms r) K HK). unfold duration_ms in *. lia.
  - rewrite Z.mod_eq by lia. unfold duration_ms. lia.
Qed.

Lemma C3_step_intervals_witness :
  emit_case 98500 quoting_case two_cases = (Ok 99500, after_quoting)
  /\ (1 <= List.length (step_names_of two_cases quoting_case))%nat
  /\ (0 <= time_sec quoting_case)%Q
  /\ exists r,
    emitted after_quoting = (emitted two_cases ++ [r])%list
    /\ List.length (steps r) = List.length (step_names_of two_cases quoting_case)
    /\ let K := Z.of_nat (List.length (steps r)) in
       let d := duration_ms r / K in
       0 <= d
       /\ (forall i s, nth_error (steps r) i = Some s ->
             step_start s = start r + Z.of_nat i * d
             /\ step_stop s = start r + (Z.of_nat i + 1) * d)
       /\ start r + K * d <= stop r
       /\ stop r - (start r + K * d) = duration_ms r mod K.
Proof.
  assert (H1 : emit_case 98500 quoting_case two_cases = (Ok 99500, after_quoting))
    by (vm_compute; reflexivity).
  assert (H2 : (1 <= List.length (step_names_of two_cases quoting_case))%nat)
    by (vm_compute; lia).
  assert (H3 : (0 <= time_sec quoting_case)%Q) by (vm_compute; discriminate).
  split; [exact H1|]. split; [exact H2|]. split; [exact H3|].
  exact (C3_step_intervals 98500 quoting_case two_cases after_quoting 99500 H1 H2 H3).
Defined.

(** C3 as stated fails: a test of one second on three steps occupies the
    window from 98500 to 99500, its steps stop at 98833, 99166 and 99499.
    The last step does not stop with the test. *)
Lemma C3_last_step_counterexample :
  ~ (forall (base : Z) (c : case) (w w' : world) (z : Z) (r : result) (s : step),
        emit_case base c w = (Ok z, w') ->
        emitted w' = (emitted w ++ [r])%list ->
        nth_error (steps r) (List.length (steps r) - 1) = Some s ->
        step_stop s = stop r).
Proof.
  intros H.
  assert (Hrun : emit_case 98500 quoting_case two_cases = (Ok 99500, after_quoting))
    by (vm_compute; reflexivity).
  destruct (emitted after_quoting) as [|r rs] eqn:Hem; [vm_compute in Hem; discriminate|].
  destruct rs as [|r2 rs]; [|vm_compute in Hem; discriminate].
  destruct (nth_error (steps r) (List.length (steps r) - 1)) as [s|] eqn:Hs.
  - specialize (H 98500 quoting_case two_cases after_quoting 99500 r s Hrun).
    rewrite Hem in H. specialize (H eq_refl Hs).
    vm_compute in Hem. inversion Hem; subst r. vm_compute in Hs.
    inversion Hs; subst s. vm_compute in H. discriminate.
  - vm_compute in Hem. inversion Hem; subst r. vm_compute in Hs. discriminate.
Qed.

End StepRecords.

(** ** Timeline *)

Section Timeline.
Import PyChar PyStr Emitter Samples.
Local Open Scope Z_scope.







End Timeline.

(** ** A failed case without steps *)

Section SteplessFailure.
Import PyChar PyStr Emitter Samples.
Local Open Scope Z_scope.

(** A failed case without steps whose report has a screenshot: the
    failure index is -1, the guard lets it through, and the assignment to
    the step raises.  The screenshot has been copied, no record is
    written. *)
Lemma stepless_failure_raises (base : Z) (c : case) (w : world)
      (dir : string) (fs : list entry) (src : entry) :
  case_status c = failed ->
  step_names_of w c = [] ->
  ET.lookup (report_name c) REPORT_TO_MAESTRO_DIR = Some dir ->
  ET.lookup dir (output_dirs w) = Some fs ->
  Screenshot.find_latest_screenshot (Some fs) = Some src ->
  exists w',
    emit_case base c w = (Raise IndexError, w')
    /\ emitted w' = emitted w.
Proof.
  intros Hst Hnames Hdir Hfs Hsrc.
  unfold emit_case, bind, gets, fresh_uuid.
  fold (step_names_of w c). rewrite Hnames.
  unfold attach_screenshot. rewrite Hst, Hdir.
  unfold bind, gets, fresh_uuid. cbn [output_dirs]. rewrite Hfs.
  unfold Screenshot.copy_screenshot_to_allure. rewrite Hsrc.
  unfold bind, write_file, modify, ret, lift. cbn [steps].
  unfold step_objects. cbn [step_objects_from].
  assert (Hidx : Correlator.failed_step_index failed (status_details c) [] = -1).
  { unfold Correlator.failed_step_index. destruct (status_details c) as [d|]; [|reflexivity].
    cbn [List.length Z.of_nat Z.sub]. induction (Correlator.candidates d) as [|p ps IH].
    - reflexivity.
    - cbn [Correlator.scan_parts Correlator.first_containing].
      destruct (2 <? String.length p)%nat; exact IH. }
  rewrite Hidx. cbn [len List.length Z.of_nat Z.ltb Z.compare].
  rewrite update_item_empty. eexists. split; reflexivity.
Qed.

(** C10, the code at the failing input: a failed case whose flow file is
    missing and whose report has a screenshot.  The failure index is -1,
    which the guard before the attachment lets through; the assignment to
    the step raises IndexError.  The screenshot has been copied and no
    record is written.  Without screenshot the same case is emitted with
    an empty list of steps and its failure detail. *)
Theorem C10_stepless_failure_raises_IndexError :
  step_names_of stepless_failure
    {| report_name := "assets_report"; flow_name := "assets_test.yaml";
       case_name := "login"; case_status := failed; time_sec := 1;
       status_details := Some {| message := "boom"; trace := "boom" |} |} = []
  /\ Correlator.failed_step_index failed
       (Some {| message := "boom"; trace := "boom" |}) [] = -1
  /\ fst (junit_to_allure_results stepless_failure) = Raise IndexError
  /\ emitted (snd (junit_to_allure_results stepless_failure)) = []
  /\ copied (snd (junit_to_allure_results stepless_failure)) = ["id1-attachment.png"]
  /\ fst (junit_to_allure_results stepless_without_screenshot) = Ok tt
  /\ exists r,
       emitted (snd (junit_to_allure_results stepless_without_screenshot)) = [r]
       /\ result_status r = failed
       /\ steps r = []
       /\ statusDetails r = Some {| message := "boom"; trace := "boom" |}
       /\ attachments r = None.
Proof.
  repeat (split; [vm_compute; reflexivity|]).
  eexists. split; [vm_compute; reflexivity|]. repeat split.
Qed.

End SteplessFailure.

(** ** Emission ends when there are steps *)

Section EmissionReturns.
Import PyChar PyStr Emitter Samples.
Local Open Scope Z_scope.




End EmissionReturns.

(** ** Examples *)

Section Examples.
Import PyChar PyStr Samples.
Local Open Scope Z_scope.

(** The message quotes the text Tap, which the second step contains: the
    failure index is 1, not the last index 2. *)
Example correlator_selects_quoted_step :
  Correlator.failed_step_index failed (status_details quoting_case)
    (step_names_of two_cases quoting_case) = 1.
Proof. vm_compute. reflexivity. Qed.

(** A message whose quoted text occurs in no step keeps the last index. *)
Example correlator_keeps_last_index :
  Correlator.failed_step_index failed
    (Some {| message := "Element " ++ quoted "logout" ++ " not found";
             trace := EmptyString |})
    (step_names_of two_cases quoting_case) = 2.
Proof. vm_compute. reflexivity. Qed.

(** An inline identifier is read by [tapOn]. *)
Example tapOn_inline_id :
  Flow.steps_from_flow_yaml
    (Some (unlines ["---"; "- tapOn: id: " ++ quoted "login-button"]))
  = ["Tap: login-button"].
Proof. vm_compute. reflexivity. Qed.

(** Comment lines and [runFlow] items. *)
Example comment_and_runFlow :
  Flow.steps_from_flow_yaml
    (Some (unlines ["appId: com.example"; "# before the separator";
                    "---"; "# Log in"; "#";
                    "- runFlow:"; "    file: ../subflows/login.yaml";
                    "- inputText: hello"]))
  = ["Log in"; "Run flow: login"; "inputText (hello)"].
Proof. vm_compute. reflexivity. Qed.

End Examples.

(** * Further properties *)

(** ** The command pattern *)

Section CommandPattern.
Import PyChar PyStr Re Flow.

Lemma run_eol (r : regex) (s : string) (k : captures) :
  run (Eol :: r) s k
  = if empty s || String.eqb s (char LF) then run r s k else None.
Proof. reflexivity. Qed.

(** A greedy star has read a run of the class, and the rest of the
    pattern has matched what follows that run. *)
Lemma run_star_inv (p : ascii -> bool) (r : regex) (s : string) :
  forall (k : captures) (res : list string * string),
    run (Star p :: r) s k = Some res ->
    exists t s', s = t ++ s' /\ every p t = true
                 /\ run r s' (eat_all t k) = Some res.
Proof.
  induction s as [|d s IH]; intros k res H.
  - rewrite run_star_empty in H. exists EmptyString, EmptyString.
    repeat split. exact H.
  - rewrite run_star_cons in H. destruct (p d) eqn:Hd.
    + destruct (run (Star p :: r) s (eat d k)) as [m|] eqn:Hm.
      * inversion H; subst m. apply IH in Hm.
        destruct Hm as (t & s' & -> & Ht & Hr).
        exists (String d t), s'. cbn. rewrite Hd, Ht. repeat split. exact Hr.
      * exists EmptyString, (String d s). repeat split. exact H.
    + exists EmptyString, (String d s). repeat split. exact H.
Qed.

Lemma eat_all_idle (t : string) (l : list string) :
  eat_all t {| closed := l; current := None |} = {| closed := l; current := None |}.
Proof. induction t as [|c t IH]; [reflexivity | exact IH]. Qed.

Lemma eat_all_group (t : string) :
  forall (l : list string) (g : string),
    eat_all t {| closed := l; current := Some g |}
    = {| closed := l; current := Some (g ++ t) |}.
Proof.
  induction t as [|c t IH]; intros l g; cbn [eat_all].
  - rewrite append_empty_r. reflexivity.
  - unfold eat. cbn [closed current option_map]. rewrite IH.
    rewrite append_assoc. reflexivity.
Qed.

Lemma command_re_items :
  command_re
  = [Star space; Chr "-"%char; One space; Star space;
     Open; One word; Star word; Close;
     Star space; Chr ":"%char; Star space;
     Open; Star dot; Close; Eol].
Proof. reflexivity. Qed.

(** A line that matches the command pattern has a command name of at
    least one character, all of them word characters. *)
Lemma command_match_groups (s : string) (m : list string) :
  rmatch command_re s = Some m ->
  exists c name rest,
    m = [String c name; rest] /\ every word (String c name) = true.
Proof.
  unfold rmatch. destruct (run command_re s start) as [[g rest0]|] eqn:H;
    [|discriminate].
  cbn [option_map fst]. intros E. inversion E; subst m; clear E.
  rewrite command_re_items in H. unfold start in H.
  apply run_star_inv in H. destruct H as (t1 & s1 & _ & _ & H).
  rewrite eat_all_idle, run_chr in H.
  destruct s1 as [|d1 s1]; [discriminate|].
  destruct (Ascii.eqb "-" d1); [|discriminate].
  rewrite run_one in H. destruct s1 as [|d2 s1]; [discriminate|].
  destruct (space d2); [|discriminate].
  unfold eat at 1 2 in H. cbn [closed current option_map] in H.
  apply run_star_inv in H. destruct H as (t2 & s2 & _ & _ & H).
  rewrite eat_all_idle, run_open, run_one in H.
  destruct s2 as [|c s2]; [discriminate|].
  destruct (word c) eqn:Hc; [|discriminate].
  unfold open, eat in H. cbn [closed current option_map append] in H.
  apply run_star_inv in H. destruct H as (name & s3 & _ & Hname & H).
  rewrite eat_all_group, run_close in H.
  unfold close in H. cbn [closed current app append] in H.
  apply run_star_inv in H. destruct H as (t3 & s4 & _ & _ & H).
  rewrite eat_all_idle, run_chr in H.
  destruct s4 as [|d3 s4]; [discriminate|].
  destruct (Ascii.eqb ":" d3); [|discriminate].
  unfold eat in H. cbn [closed current option_map] in H.
  apply run_star_inv in H. destruct H as (t4 & s5 & _ & _ & H).
  rewrite eat_all_idle, run_open in H.
  unfold open in H. cbn [closed] in H.
  apply run_star_inv in H. destruct H as (t5 & s6 & _ & _ & H).
  rewrite eat_all_group, run_close, run_eol in H.
  destruct (empty s6 || String.eqb s6 (char LF)); [|discriminate].
  rewrite run_done in H. unfold close in H. cbn [closed current app] in H.
  inversion H; subst. exists c, name, (EmptyString ++ t5).
  split; [reflexivity|]. cbn [every]. rewrite Hc, Hname. reflexivity.
Qed.

End CommandPattern.

(** ** Flow step extractor: the separator, the step names *)

Section FlowLines.
Import PyChar PyStr Flow MoreSamples.

Lemma scan_lines_cons (in_steps : bool) (line : string) (following : list string) :
  scan_lines in_steps (line :: following)
  = let line_stripped := rstrip line in
    if String.eqb (strip line_stripped) "---" then scan_lines true following
    else if negb in_steps then scan_lines in_steps following
    else if startswith "#" (strip line_stripped)
            && negb (String.eqb (strip line_stripped) "#")
    then or_else (strip (lstrip_char "#"%char (strip line_stripped))) "Comment"
           :: scan_lines in_steps following
    else
      match Re.rmatch command_re line_stripped with
      | Some m =>
          command_step (Re.group1 m) (strip (Re.group2 m)) following
            :: scan_lines in_steps following
      | None => scan_lines in_steps following
      end.
Proof. reflexivity. Qed.

Lemma scan_before_separator (pre rest : list string) :
  Forall (fun l => strip (rstrip l) <> "---") pre ->
  scan_lines false (pre ++ rest) = scan_lines false rest.
Proof.
  induction 1 as [|l pre Hl _ IH]; [reflexivity|].
  cbn [app]. rewrite scan_lines_cons. cbn zeta.
  apply String.eqb_neq in Hl. rewrite Hl. cbn [negb]. exact IH.
Qed.

(** X1: the lines above the first separator line give no step, whatever
    they hold: the steps of a file are those of the lines below its first
    separator. *)
Theorem X1_lines_above_separator_ignored
        (text : string) (pre : list string) (sep : string) (body : list string) :
  splitlines text = (pre ++ sep :: body)%list ->
  Forall (fun l => strip (rstrip l) <> "---") pre ->
  strip (rstrip sep) = "---" ->
  steps_from_flow_yaml (Some text) = scan_lines true body.
Proof.
  intros Hsplit Hpre Hsep. unfold steps_from_flow_yaml.
  rewrite Hsplit, (scan_before_separator pre (sep :: body) Hpre).
  rewrite scan_lines_cons. cbn zeta. rewrite Hsep. reflexivity.
Qed.

Lemma X1_lines_above_separator_witness :
  splitlines flow_with_header
  = (["appId: com.example"; "- launchApp:"] ++ "  ---  " :: ["# Log in"; "- tapOn: Sign in"])%list
  /\ steps_from_flow_yaml (Some flow_with_header)
     = scan_lines true ["# Log in"; "- tapOn: Sign in"]
  /\ scan_lines true ["# Log in"; "- tapOn: Sign in"] = ["Log in"; "Tap: Sign in"].
Proof.
  assert (H1 : splitlines flow_with_header
               = (["appId: com.example"; "- launchApp:"]
                    ++ "  ---  " :: ["# Log in"; "- tapOn: Sign in"])%list)
    by (vm_compute; reflexivity).
  split; [exact H1|]. split; [|vm_compute; reflexivity].
  apply (X1_lines_above_separator_ignored flow_with_header
           ["appId: com.example"; "- launchApp:"] "  ---  "
           ["# Log in"; "- tapOn: Sign in"] H1).
  - repeat constructor; vm_compute; discriminate.
  - vm_compute. reflexivity.
Defined.

(** X2: a file without separator line gives no step, even when its lines
    are commands. *)
Theorem X2_no_separator_no_steps (text : string) :
  Forall (fun l => strip (rstrip l) <> "---") (splitlines text) ->
  steps_from_flow_yaml (Some text) = [].
Proof.
  intros H. unfold steps_from_flow_yaml.
  rewrite <- (app_nil_r (splitlines text)).
  rewrite (scan_before_separator _ [] H). reflexivity.
Qed.

Lemma X2_no_separator_witness :
  Forall (fun l => strip (rstrip l) <> "---")
         (splitlines (unlines ["- launchApp:"; "- tapOn: Sign in"]))
  /\ steps_from_flow_yaml (Some (unlines ["- launchApp:"; "- tapOn: Sign in"])) = [].
Proof.
  assert (H : Forall (fun l => strip (rstrip l) <> "---")
                     (splitlines (unlines ["- launchApp:"; "- tapOn: Sign in"]))).
  { vm_compute. repeat constructor; discriminate. }
  split; [exact H|].
  exact (X2_no_separator_no_steps (unlines ["- launchApp:"; "- tapOn: Sign in"]) H).
Defined.

Lemma scan_lines_length (lines : list string) :
  forall in_steps,
    (List.length (scan_lines in_steps lines) <= List.length lines)%nat.
Proof.
  induction lines as [|l lines IH]; intros b; [cbn; lia|].
  rewrite scan_lines_cons. cbn zeta. cbn [List.length].
  destruct (String.eqb _ "---"); [specialize (IH true); lia|].
  destruct (negb b); [specialize (IH b); lia|].
  destruct (_ && _); [cbn [List.length]; specialize (IH b); lia|].
  destruct (Re.rmatch _ _); [cbn [List.length]|]; specialize (IH b); lia.
Qed.

(** X3: every line of the file gives at most one step: there are never
    more steps than lines. *)
Theorem X3_at_most_one_step_per_line (flow : option string) :
  (List.length (steps_from_flow_yaml flow)
   <= match flow with
      | Some text => List.length (splitlines text)
      | None => 0
      end)%nat.
Proof.
  destruct flow as [text|]; [apply scan_lines_length | cbn; lia].
Qed.

Lemma command_step_named (c : ascii) (name rest : string) (following : list string) :
  command_step (String c name) rest following <> EmptyString.
Proof.
  unfold command_step, tapOn_step, assertVisible_step.
  repeat match goal with
         | |- context [if ?b then _ else _] => destruct b
         end; cbn [append]; discriminate.
Qed.

Lemma scan_lines_named (lines : list string) :
  forall in_steps,
    Forall (fun s => s <> EmptyString) (scan_lines in_steps lines).
Proof.
  induction lines as [|l lines IH]; intros b; [constructor|].
  rewrite scan_lines_cons. cbn zeta.
  destruct (String.eqb _ "---"); [apply IH|].
  destruct (negb b); [apply IH|].
  destruct (_ && _).
  - constructor; [|apply IH]. unfold or_else.
    destruct (strip (lstrip_char "#" (strip (rstrip l)))); cbn [empty]; discriminate.
  - destruct (Re.rmatch command_re (rstrip l)) as [m|] eqn:Hm; [|apply IH].
    constructor; [|apply IH].
    apply command_match_groups in Hm. destruct Hm as (c & name & rest & -> & _).
    apply command_step_named.
Qed.

(** X4: the extractor never yields an empty step name. *)
Theorem X4_step_names_not_empty (flow : option string) :
  Forall (fun s => s <> EmptyString) (steps_from_flow_yaml flow).
Proof.
  destruct flow as [text|]; [apply scan_lines_named | constructor].
Qed.

End FlowLines.

(** ** Failure correlator: the range of the index *)

Section FailureIndexRange.
Import PyChar PyStr Correlator.
Local Open Scope Z_scope.

Lemma scan_parts_stepless (parts : list string) (default : Z) :
  scan_parts parts [] default = default.
Proof.
  induction parts as [|p ps IH]; [reflexivity|].
  cbn [scan_parts first_containing]. destruct (2 <? String.length p)%nat; exact IH.
Qed.

(** X5: whatever the status and the failure detail, the failure index is
    -1 when there is no step, and the index of a step otherwise. *)
Theorem X5_failure_index_range (st : status) (sd : option details)
        (step_names : list string) :
  let f := failed_step_index st sd step_names in
  (step_names = [] /\ f = -1)
  \/ (0 <= f < Z.of_nat (List.length step_names)).
Proof.
  cbn zeta. destruct step_names as [|n ns].
  - left. split; [reflexivity|]. unfold failed_step_index.
    destruct st; try reflexivity. destruct sd; [apply scan_parts_stepless | reflexivity].
  - right.
    destruct (failed_step_index_range st sd (n :: ns)) as (f & -> & Hf);
      [cbn; lia | lia].
Qed.

End FailureIndexRange.

(** ** Screenshot locator: ties *)

Section ScreenshotTies.
Import PyChar PyStr Screenshot Samples MoreSamples.

Lemma latest_from_first (fs : list entry) :
  forall (latest : option entry) (m : Q) (f : entry),
    latest_from latest m fs = Some f ->
    (latest = Some f
     /\ forall g, In g fs -> is_image g = true -> (st_mtime g <= m)%Q)
    \/ (exists pre post,
           fs = (pre ++ f :: post)%list
           /\ is_image f = true
           /\ (m < st_mtime f)%Q
           /\ (forall g, In g pre -> is_image g = true -> (st_mtime g < st_mtime f)%Q)
           /\ (forall g, In g post -> is_image g = true -> (st_mtime g <= st_mtime f)%Q)).
Proof.
  induction fs as [|h t IH]; intros latest m f H; cbn [latest_from] in H.
  - left. split; [exact H | intros g []].
  - destruct (is_image h) eqn:Himg.
    + destruct (PyNum.gt (st_mtime h) m) eqn:Hgt.
      * apply gt_true in Hgt. apply IH in H.
        destruct H as [[E Hmax] | (pre & post & -> & Hf & Hlt & Hpre & Hpost)].
        -- inversion E; subst h. right. exists [], t.
           repeat split; try assumption. intros g [].
        -- right. exists (h :: pre), post. repeat split; try assumption.
           ++ eapply Qlt_trans; eassumption.
           ++ intros g [<- | Hin] Hg; [exact Hlt | apply Hpre; assumption].
      * apply gt_false in Hgt. apply IH in H.
        destruct H as [[E Hmax] | (pre & post & -> & Hf & Hlt & Hpre & Hpost)].
        -- left. split; [exact E|].
           intros g [<- | Hin] Hg; [exact Hgt | apply Hmax; assumption].
        -- right. exists (h :: pre), post. repeat split; try assumption.
           intros g [<- | Hin] Hg; [|apply Hpre; assumption].
           eapply Qle_lt_trans; eassumption.
    + apply IH in H.
      destruct H as [[E Hmax] | (pre & post & -> & Hf & Hlt & Hpre & Hpost)].
      * left. split; [exact E|].
        intros g [<- | Hin] Hg; [congruence | apply Hmax; assumption].
      * right. exists (h :: pre), post. repeat split; try assumption.
        intros g [<- | Hin] Hg; [congruence | apply Hpre; assumption].
Qed.

(** X6: the screenshot that is found is an image file with a positive
    modification time; every image listed before it is strictly older and
    no image listed after it is newer.  Of several images with the latest
    time the first one listed is taken. *)
Theorem X6_first_of_the_latest (fs : list entry) (src : entry) :
  find_latest_screenshot (Some fs) = Some src ->
  exists pre post,
    fs = (pre ++ src :: post)%list
    /\ is_image src = true
    /\ (0 < st_mtime src)%Q
    /\ (forall g, In g pre -> is_image g = true -> (st_mtime g < st_mtime src)%Q)
    /\ (forall g, In g post -> is_image g = true -> (st_mtime g <= st_mtime src)%Q).
Proof.
  unfold find_latest_screenshot. intros H. apply latest_from_first in H.
  destruct H as [[E _] | H]; [discriminate | exact H].
Qed.

Lemma X6_first_of_the_latest_witness :
  Screenshot.find_latest_screenshot (Some [older_shot; twin_a; notes; twin_b])
  = Some twin_a
  /\ exists pre post,
    [older_shot; twin_a; notes; twin_b] = (pre ++ twin_a :: post)%list
    /\ Screenshot.is_image twin_a = true
    /\ (0 < st_mtime twin_a)%Q
    /\ (forall g, In g pre -> Screenshot.is_image g = true ->
                  (st_mtime g < st_mtime twin_a)%Q)
    /\ (forall g, In g post -> Screenshot.is_image g = true ->
                  (st_mtime g <= st_mtime twin_a)%Q).
Proof.
  assert (H : Screenshot.find_latest_screenshot
                (Some [older_shot; twin_a; notes; twin_b]) = Some twin_a)
    by (vm_compute; reflexivity).
  split; [exact H|].
  exact (X6_first_of_the_latest [older_shot; twin_a; notes; twin_b] twin_a H).
Defined.

End ScreenshotTies.

(** ** What the run leaves as it is *)

Section Frame.
Import PyChar PyStr Samples MoreSamples.

Lemma evolves_refl (w : world) : evolves w w.
Proof.
  repeat split; try reflexivity. - exists []. reflexivity. - intros key. left. reflexivity.
Qed.

Lemma evolves_trans (w1 w2 w3 : world) :
  evolves w1 w2 -> evolves w2 w3 -> evolves w1 w3.
Proof.
  intros (F1 & O1 & N1 & U1 & C1 & [n1 W1] & R1) (F2 & O2 & N2 & U2 & C2 & [n2 W2] & R2).
  repeat split; try congruence; try lia.
  - exists (n2 ++ n1)%list. rewrite W2, W1, app_assoc. reflexivity.
  - intros key. destruct (R2 key) as [E2 | [E2 H2]]; [|right; split; assumption].
    destruct (R1 key) as [E1 | [E1 H1]]; [left; congruence | right; split; [congruence | assumption]].
Qed.

Lemma framed_ret {A : Type} (a : A) : framed (ret a).
Proof. intros w o w' H. inversion H. apply evolves_refl. Qed.

Lemma framed_raise {A : Type} (e : exn) : framed (@raise A e).
Proof. intros w o w' H. inversion H. apply evolves_refl. Qed.

Lemma framed_lift {A : Type} (x : outcome A) : framed (lift x).
Proof. intros w o w' H. inversion H. apply evolves_refl. Qed.

Lemma framed_gets {A : Type} (f : world -> A) : framed (gets f).
Proof. intros w o w' H. inversion H. apply evolves_refl. Qed.

Lemma framed_bind {A B : Type} (m : M A) (k : A -> M B) :
  framed m -> (forall a, framed (k a)) -> framed (bind m k).
Proof.
  intros Hm Hk w o w' H. unfold bind in H.
  destruct (m w) as [[a|e] w1] eqn:E.
  - eapply evolves_trans; [eapply Hm, E | eapply Hk, H].
  - inversion H; subst. eapply Hm, E.
Qed.

Lemma framed_for_fold {A S : Type} (xs : list A) (body : S -> A -> M S) :
  (forall s x, In x xs -> framed (body s x)) ->
  forall s, framed (for_fold xs s body).
Proof.
  induction xs as [|x xs IH]; intros Hbody s; cbn [for_fold].
  - apply framed_ret.
  - apply framed_bind; [apply Hbody; left; reflexivity|].
    intros s'. apply IH. intros s0 x0 Hin. apply Hbody. right. exact Hin.
Qed.

Lemma framed_fresh_uuid : framed fresh_uuid.
Proof.
  intros w o w' H. unfold fresh_uuid in H. inversion H; subst; clear H.
  repeat split; cbn; try lia. - exists []. reflexivity. - intros key. left. reflexivity.
Qed.

Lemma framed_write_file (file : string) (b : body) : framed (write_file file b).
Proof.
  intros w o w' H. unfold write_file, modify in H. inversion H; subst; clear H.
  repeat split; cbn; try lia. - exists [(file, b)]. reflexivity. - intros key. left. reflexivity.
Qed.

Lemma lookup_remove_same {A : Type} (k : string) (d : list (string * A)) :
  ET.lookup k (remove_key k d) = None.
Proof.
  induction d as [|[k' v] d IH]; [reflexivity|].
  unfold remove_key in *. cbn [filter fst].
  destruct (String.eqb k k') eqn:E; cbn [negb]; [exact IH|].
  cbn [ET.lookup]. rewrite E. exact IH.
Qed.

Lemma lookup_remove_other {A : Type} (k k' : string) (d : list (string * A)) :
  k' <> k -> ET.lookup k' (remove_key k d) = ET.lookup k' d.
Proof.
  intros Hne. induction d as [|[k0 v] d IH]; [reflexivity|].
  unfold remove_key in *. cbn [filter fst].
  destruct (String.eqb_spec k k0) as [<-|Hk]; cbn [negb ET.lookup].
  - apply String.eqb_neq in Hne. rewrite Hne. exact IH.
  - destruct (String.eqb k' k0); [reflexivity | exact IH].
Qed.

Lemma framed_unlink_report (key flow : string) :
  In (key, flow) REPORT_TO_FLOW_ORDER -> framed (unlink_report key).
Proof.
  intros Hin w o w' H. unfold unlink_report, modify in H. inversion H; subst; clear H.
  repeat split; cbn; try lia.
  - exists []. reflexivity.
  - intros k. destruct (String.eqb_spec k key) as [->|Hne].
    + right. split; [apply lookup_remove_same | exists flow; exact Hin].
    + left. apply lookup_remove_other, Hne.
Qed.

Lemma framed_collect_report (rf : string * string) :
  In rf REPORT_TO_FLOW_ORDER -> framed (Collector.collect_report rf).
Proof.
  destruct rf as [report flow]. intros Hin. unfold Collector.collect_report.
  apply framed_bind; [apply framed_gets|]. intros [[|root]|].
  - apply framed_raise.
  - apply framed_bind; [apply framed_lift|]. intros cs.
    apply framed_bind; [eapply framed_unlink_report, Hin|]. intros _. apply framed_ret.
  - apply framed_ret.
Qed.

Lemma framed_collect : framed Collector.collect.
Proof.
  unfold Collector.collect. apply framed_for_fold. intros s rf Hin.
  apply framed_bind; [apply framed_collect_report, Hin|]. intros cs. apply framed_ret.
Qed.

Lemma framed_copy_screenshot (d : option (list entry)) (u : string) :
  framed (Screenshot.copy_screenshot_to_allure d u).
Proof.
  unfold Screenshot.copy_screenshot_to_allure.
  destruct (Screenshot.find_latest_screenshot d); [|apply framed_ret].
  apply framed_bind; [apply framed_write_file|]. intros _. apply framed_ret.
Qed.

Lemma framed_attach_screenshot (c : case) (f : Z) (r : result) :
  framed (Emitter.attach_screenshot c f r).
Proof.
  unfold Emitter.attach_screenshot.
  destruct (case_status c); try apply framed_ret.
  destruct (ET.lookup _ _); [|apply framed_ret].
  apply framed_bind; [apply framed_gets|]. intros d.
  apply framed_bind; [apply framed_fresh_uuid|]. intros u.
  apply framed_bind; [apply framed_copy_screenshot|]. intros [[src_name mime]|]; [|apply framed_ret].
  destruct (_ <? _)%Z; [|apply framed_ret].
  apply framed_bind; [apply framed_lift|]. intros l. apply framed_ret.
Qed.

Lemma framed_emit_case (base : Z) (c : case) : framed (Emitter.emit_case base c).
Proof.
  unfold Emitter.emit_case.
  apply framed_bind; [apply framed_gets|]. intros flow.
  apply framed_bind; [apply framed_fresh_uuid|]. intros uid.
  apply framed_bind; [apply framed_attach_screenshot|]. intros r.
  apply framed_bind; [apply framed_write_file|]. intros _. apply framed_ret.
Qed.

Lemma framed_emit_all (cases : list case) : framed (Emitter.emit_all cases).
Proof.
  unfold Emitter.emit_all.
  apply framed_bind; [apply framed_gets|]. intros now.
  apply framed_bind; [|intros z; apply framed_ret].
  apply framed_for_fold. intros s c _. apply framed_emit_case.
Qed.

Lemma framed_run : framed junit_to_allure_results.
Proof.
  unfold junit_to_allure_results.
  apply framed_bind; [apply framed_collect|]. intros [|c cs];
    [apply framed_ret | apply framed_emit_all].
Qed.

(** X7: whatever the run does, and however it ends, it leaves the flow
    files, the output directories of the test runner and the files
    already written as they are.  A report file is either left as it is
    or deleted, and only the report files of the table are deleted. *)
Theorem X7_run_frame (w : world) :
  let w' := snd (junit_to_allure_results w) in
  flows w' = flows w
  /\ output_dirs w' = output_dirs w
  /\ (exists new, created w' = (new ++ created w)%list)
  /\ (forall key,
         ET.lookup key (reports w') = ET.lookup key (reports w)
         \/ (ET.lookup key (reports w') = None
             /\ exists flow, In (key, flow) REPORT_TO_FLOW_ORDER)).
Proof.
  cbn zeta. destruct (junit_to_allure_results w) as [o w'] eqn:H.
  apply framed_run in H. destruct H as (F & O & _ & _ & _ & C & R).
  cbn [snd]. repeat split; assumption.
Qed.

End Frame.

(** ** Report collector: deletion, failures, the rows of the table *)

Section CollectorFailures.
Import PyChar PyStr Collector Samples MoreSamples.

Lemma case_of_raise (report flow : string) (tc : ET.element) (e : exn) :
  case_of report flow tc = Raise e -> e = ValueError.
Proof.
  unfold case_of, time_of. destruct (ET.get tc "time") as [t|]; [|discriminate].
  destruct (PyNum.float_of_string t); [discriminate|].
  intros H. inversion H. reflexivity.
Qed.

Lemma cases_of_raise (report flow : string) (tcs : list ET.element) (e : exn) :
  cases_of report flow tcs = Raise e -> e = ValueError.
Proof.
  induction tcs as [|tc tcs IH]; [discriminate|]. cbn [cases_of].
  destruct (case_of report flow tc) eqn:Hc.
  - destruct (cases_of report flow tcs); [discriminate|].
    intros H. inversion H; subst. apply IH. reflexivity.
  - intros H. inversion H; subst. eapply case_of_raise, Hc.
Qed.

Lemma case_of_fields (report flow : string) (tc : ET.element) (c : case) :
  case_of report flow tc = Ok c ->
  report_name c = report /\ flow_name c = flow /\ case_status c <> skipped.
Proof.
  unfold case_of. destruct (time_of tc); [|discriminate].
  intros H. inversion H; subst; clear H. cbn. repeat split.
  unfold derive_status.
  repeat match goal with
         | |- context [if ?b then _ else _] => destruct b
         end; discriminate.
Qed.

Lemma cases_of_fields (report flow : string) (tcs : list ET.element) :
  forall cs, cases_of report flow tcs = Ok cs ->
    Forall (fun c => report_name c = report /\ flow_name c = flow
                     /\ case_status c <> skipped) cs
    /\ List.length cs = List.length tcs.
Proof.
  induction tcs as [|tc tcs IH]; intros cs H; cbn [cases_of] in H.
  - inversion H. split; [constructor | reflexivity].
  - destruct (case_of report flow tc) as [c|] eqn:Hc; [|discriminate].
    destruct (cases_of report flow tcs) as [cs'|]; [|discriminate].
    inversion H; subst. destruct (IH cs' eq_refl) as [IH1 IH2]. split.
    + constructor; [eapply case_of_fields, Hc | exact IH1].
    + cbn. now rewrite IH2.
Qed.


Lemma for_fold_raise {A S : Type} (body : S -> A -> M S) (xs : list A) :
  forall (s : S) (w w' : world) (e : exn),
    for_fold xs s body w = (Raise e, w') ->
    exists s0 x w0, In x xs /\ body s0 x w0 = (Raise e, w').
Proof.
  induction xs as [|x xs IH]; intros s w w' e H; cbn [for_fold] in H.
  - discriminate.
  - unfold bind in H. destruct (body s x w) as [[s1|e1] w1] eqn:Hb.
    + apply IH in H. destruct H as (s0 & x0 & w0 & Hin & H).
      exists s0, x0, w0. split; [right; exact Hin | exact H].
    + inversion H; subst. exists s, x, w. split; [left; reflexivity | exact Hb].
Qed.

Lemma collect_report_raise (rf : string * string) (w w' : world) (e : exn) :
  collect_report rf w = (Raise e, w') -> e = ParseError \/ e = ValueError.
Proof.
  destruct rf as [report flow]. unfold collect_report, bind, gets, raise, ret, lift.
  destruct (ET.lookup report (reports w)) as [[|root]|].
  - intros H. inversion H. left. reflexivity.
  - destruct (cases_of report flow (testcases_of root)) eqn:Hc.
    + unfold unlink_report, modify. discriminate.
    + intros H. inversion H; subst. right. eapply cases_of_raise, Hc.
  - discriminate.
Qed.

(** X9: when the collection raises, the run raises the same exception,
    which is ParseError or ValueError, and nothing has been written: no
    record and no attachment.  The report files read before the failure
    are already deleted. *)
Theorem X9_collection_failure_writes_nothing (w w1 : world) (e : exn) :
  collect w = (Raise e, w1) ->
  junit_to_allure_results w = (Raise e, w1)
  /\ (e = ParseError \/ e = ValueError)
  /\ created w1 = created w.
Proof.
  intros H. split; [|split].
  - unfold junit_to_allure_results, bind. rewrite H. reflexivity.
  - unfold collect in H. apply for_fold_raise in H.
    destruct H as (s0 & rf & w0 & _ & H). unfold bind in H.
    destruct (collect_report rf w0) as [[cs|e1] w2] eqn:Hr; [discriminate|].
    inversion H; subst. eapply collect_report_raise, Hr.
  - eapply collect_created, H.
Qed.

Lemma X9_collection_failure_witness :
  collect broken_world = (Raise ParseError, snd (collect broken_world))
  /\ junit_to_allure_results broken_world
     = (Raise ParseError, snd (collect broken_world))
  /\ (ParseError = ParseError \/ ParseError = ValueError)
  /\ created (snd (collect broken_world)) = created broken_world
  /\ ET.lookup "assets_report" (reports (snd (collect broken_world))) = None
  /\ ET.lookup "dashboard_report" (reports (snd (collect broken_world)))
     = Some Malformed.
Proof.
  assert (H : collect broken_world = (Raise ParseError, snd (collect broken_world)))
    by (vm_compute; reflexivity).
  split; [exact H|].
  destruct (X9_collection_failure_writes_nothing broken_world
              (snd (collect broken_world)) ParseError H) as (H1 & H2 & H3).
  split; [exact H1|]. split; [exact H2|]. split; [exact H3|].
  split; vm_compute; reflexivity.
Defined.

Lemma for_fold_state {A S : Type} (P : S -> Prop) (body : S -> A -> M S)
      (xs : list A) :
  (forall s x w s' w', In x xs -> P s -> body s x w = (Ok s', w') -> P s') ->
  forall s w s' w', P s -> for_fold xs s body w = (Ok s', w') -> P s'.
Proof.
  induction xs as [|x xs IH]; intros Hbody s w s' w' Hs H; cbn [for_fold] in H.
  - inversion H; subst. exact Hs.
  - apply bind_ok in H. destruct H as (s1 & w1 & Hb & H).
    eapply IH; [|eapply Hbody; [left; reflexivity | exact Hs | exact Hb] | exact H].
    intros s0 x0 w0 s0' w0' Hin. apply Hbody. right. exact Hin.
Qed.

Lemma known_output_dir (report flow : string) :
  In (report, flow) REPORT_TO_FLOW_ORDER ->
  exists dir, ET.lookup report REPORT_TO_MAESTRO_DIR = Some dir.
Proof.
  unfold REPORT_TO_FLOW_ORDER. cbn [In].
  intros [E | [E | [E | []]]]; inversion E; subst; eexists; reflexivity.
Qed.

(** X10: every collected case carries the key of its report and the
    flow name that the table pairs with it; its report has an output
    directory in the second table; its status is passed or failed. *)
Theorem X10_cases_carry_table_rows (w w1 : world) (cases : list case) :
  collect w = (Ok cases, w1) ->
  Forall (fun c =>
            In (report_name c, flow_name c) REPORT_TO_FLOW_ORDER
            /\ (exists dir, ET.lookup (report_name c) REPORT_TO_MAESTRO_DIR = Some dir)
            /\ (case_status c = passed \/ case_status c = failed)) cases.
Proof.
  unfold collect. intros H.
  refine (for_fold_state _ _ _ _ _ _ _ _ (Forall_nil _) H).
  intros s [report flow] w0 s' w0' Hin Hs Hb.
  apply bind_ok in Hb. destruct Hb as (cs & w2 & Hr & Hret).
  unfold ret in Hret. inversion Hret; subst; clear Hret.
  apply Forall_app. split; [exact Hs|].
  unfold collect_report, bind, gets, raise, ret, lift in Hr.
  destruct (ET.lookup report (reports w0)) as [[|root]|].
  - discriminate.
  - destruct (cases_of report flow (testcases_of root)) as [cs'|] eqn:Hc; [|discriminate].
    unfold unlink_report, modify in Hr. inversion Hr; subst; clear Hr.
    apply cases_of_fields in Hc. destruct Hc as [Hc _].
    eapply Forall_impl; [|exact Hc]. intros c (-> & -> & Hst).
    split; [exact Hin|]. split; [eapply known_output_dir, Hin|].
    destruct (case_status c); [left | right | elim Hst]; reflexivity.
  - inversion Hr; subst. constructor.
Qed.

Lemma X10_cases_carry_table_rows_witness :
  collect two_cases = (Ok collected_cases, after_collection)
  /\ Forall (fun c =>
               In (report_name c, flow_name c) REPORT_TO_FLOW_ORDER
               /\ (exists dir,
                      ET.lookup (report_name c) REPORT_TO_MAESTRO_DIR = Some dir)
               /\ (case_status c = passed \/ case_status c = failed))
            collected_cases.
Proof.
  assert (H : collect two_cases = (Ok collected_cases, after_collection))
    by (vm_compute; reflexivity).
  split; [exact H|].
  exact (X10_cases_carry_table_rows two_cases after_collection collected_cases H).
Defined.

Lemma collect_report_consumes (report flow : string) (w w' : world)
      (cs : list case) :
  collect_report (report, flow) w = (Ok cs, w') ->
  ET.lookup report (reports w') = None.
Proof.
  unfold collect_report, bind, gets, raise, ret, lift.
  destruct (ET.lookup report (reports w)) as [[|root]|] eqn:Hl.
  - discriminate.
  - destruct (cases_of report flow (testcases_of root)); [|discriminate].
    unfold unlink_report, modify. intros H. inversion H; subst. cbn [reports].
    apply lookup_remove_same.
  - intros H. inversion H; subst. exact Hl.
Qed.

Lemma for_fold_consumed {S : Type} (body : S -> string * string -> M S)
      (xs : list (string * string)) :
  (forall s x, In x xs -> framed (body s x)) ->
  (forall s x w s' w', body s x w = (Ok s', w') ->
                       ET.lookup (fst x) (reports w') = None) ->
  forall s w s' w',
    for_fold xs s body w = (Ok s', w') ->
    forall x, In x xs -> ET.lookup (fst x) (reports w') = None.
Proof.
  intros Hframe Hbody. induction xs as [|x xs IH]; intros s w s' w' H x0 Hin.
  - destruct Hin.
  - cbn [for_fold] in H. apply bind_ok in H. destruct H as (s1 & w1 & Hb & H).
    assert (Hframe' : forall s x0, In x0 xs -> framed (body s x0)).
    { intros s0 y Hy. apply Hframe. right. exact Hy. }
    destruct Hin as [<- | Hin]; [|eapply (IH Hframe'); eassumption].
    apply Hbody in Hb.
    assert (Hev : evolves w1 w').
    { eapply (framed_for_fold xs body Hframe'), H. }
    destruct Hev as (_ & _ & _ & _ & _ & _ & R).
    destruct (R (fst x)) as [E | [E _]]; congruence.
Qed.

Lemma run_consumes_reports (w w' : world) :
  junit_to_allure_results w = (Ok tt, w') -> no_report_files w'.
Proof.
  intros H. unfold junit_to_allure_results in H.
  apply bind_ok in H. destruct H as (cases & w1 & Hc & H).
  assert (H1 : forall rf, In rf REPORT_TO_FLOW_ORDER ->
                          ET.lookup (fst rf) (reports w1) = None).
  { unfold collect in Hc. intros rf Hin.
    refine (for_fold_consumed _ _ _ _ _ _ _ _ Hc rf Hin).
    - intros s x Hx. apply framed_bind; [|intros cs; apply framed_ret].
      apply framed_collect_report, Hx.
    - intros s [r f] w0 s' w0' Hb. apply bind_ok in Hb.
      destruct Hb as (cs & w2 & Hr & Hret). unfold ret in Hret.
      inversion Hret; subst. eapply collect_report_consumes, Hr. }
  assert (Hev : evolves w1 w').
  { destruct cases as [|c cs]; [inversion H; apply evolves_refl|].
    eapply framed_emit_all, H. }
  destruct Hev as (_ & _ & _ & _ & _ & _ & R).
  intros rf Hin. specialize (H1 rf Hin).
  destruct (R (fst rf)) as [E | [E _]]; congruence.
Qed.

(** X11: after a run that ends without exception none of the report
    files of the table is left. *)
Theorem X11_reports_consumed (w w' : world) :
  junit_to_allure_results w = (Ok tt, w') ->
  forall report flow,
    In (report, flow) REPORT_TO_FLOW_ORDER ->
    ET.lookup report (reports w') = None.
Proof.
  intros H report flow Hin.
  apply (run_consumes_reports w w' H (report, flow) Hin).
Qed.

Lemma X11_reports_consumed_witness :
  junit_to_allure_results two_cases = (Ok tt, after_run)
  /\ forall report flow,
    In (report, flow) REPORT_TO_FLOW_ORDER ->
    ET.lookup report (reports after_run) = None.
Proof.
  assert (H : junit_to_allure_results two_cases = (Ok tt, after_run))
    by (vm_compute; reflexivity).
  split; [exact H|].
  exact (X11_reports_consumed two_cases after_run H).
Defined.

End CollectorFailures.

(** ** Result emitter: exceptions, attachments, identity *)

Section EmitterPaths.
Import PyChar PyStr Emitter Samples MoreSamples.
Local Open Scope Z_scope.

Lemma emit_case_steps (base : Z) (c : case) (w : world) :
  emit_case base c w
  = bind (attach_screenshot c
            (Correlator.failed_step_index (case_status c) (status_details c)
               (step_names_of w c))
            (initial_record base c w))
         (fun r' =>
            bind (write_file (uuid4 w (uuid_calls w) ++ "-result.json") (ResultJson r'))
                 (fun _ => ret (base + PyNum.int (time_sec c * 1000)%Q)))
         (after_uuid w).
Proof. reflexivity. Qed.


Lemma attach_found (c : case) (f : Z) (r : result) (w : world)
      (dir : string) (src : entry) :
  case_status c = failed ->
  ET.lookup (report_name c) REPORT_TO_MAESTRO_DIR = Some dir ->
  Screenshot.find_latest_screenshot (ET.lookup dir (output_dirs w)) = Some src ->
  let att := screenshot_of (uuid4 w (uuid_calls w)) src in
  let w' :=
    {| reports := reports w; flows := flows w; output_dirs := output_dirs w;
       created := (att_source att, CopyOf src) :: created w; now_ms := now_ms w;
       uuid4 := uuid4 w; uuid_calls := S (uuid_calls w) |} in
  attach_screenshot c f r w
  = if f <? len (steps r) then
      match update_item (steps r) f (attach_to_step att) with
      | Ok l => (Ok (with_screenshot att l r), w')
      | Raise e => (Raise e, w')
      end
    else (Ok (with_screenshot att (steps r) r), w').
Proof.
  intros Hst Hdir Hsrc. cbn zeta. unfold attach_screenshot. rewrite Hst, Hdir.
  unfold bind, gets, fresh_uuid, Screenshot.copy_screenshot_to_allure.
  cbn [output_dirs]. rewrite Hsrc.
  unfold bind, write_file, modify, ret, lift.
  destruct (f <? len (steps r)); [|reflexivity].
  unfold screenshot_of.
  destruct (update_item (steps r) f _); reflexivity.
Qed.



Lemma step_objects_length (base : Z) (c : case) (names : list string) :
  List.length (step_objects base c names) = List.length names.
Proof. unfold step_objects. apply step_objects_from_length. Qed.





End EmitterPaths.

(** ** Result emitter: the records *)

Section EmitterRecords.
Import PyChar PyStr Emitter Samples MoreSamples.
Local Open Scope Z_scope.

Lemma update_nth_nth {A : Type} (f : A -> A) (l : list A) :
  forall n i,
    nth_error (update_nth n f l) i
    = if Nat.eqb i n then option_map f (nth_error l i) else nth_error l i.
Proof.
  induction l as [|x l IH]; intros n i.
  - destruct n, i; cbn; try reflexivity; destruct (Nat.eqb _ _); reflexivity.
  - destruct n as [|n], i as [|i]; cbn; try reflexivity. apply IH.
Qed.

Lemma update_item_at {A : Type} (l : list A) (n : nat) (f : A -> A) :
  (n < List.length l)%nat ->
  update_item l (Z.of_nat n) f = Ok (update_nth n f l).
Proof.
  intros Hn. unfold update_item, len.
  destruct (Z.ltb_spec (Z.of_nat n) 0); [lia|].
  destruct (Z.ltb_spec (Z.of_nat n) 0); [lia|].
  destruct (Z.leb_spec (Z.of_nat (List.length l)) (Z.of_nat n)); [lia|].
  cbn [orb]. rewrite Nat2Z.id. reflexivity.
Qed.

Lemma step_objects_plain_attachments (base : Z) (c : case) (names : list string)
      (i : nat) (s : step) :
  nth_error (step_objects base c names) i = Some s -> step_attachments s = None.
Proof.
  unfold step_objects. intros H. apply step_objects_from_nth in H. apply H.
Qed.

(** X14: a failed case whose screenshot is found, emitted without
    exception.  The screenshot is copied under the second identifier
    drawn, then the record is written under the first.  The record
    refers to the copy in its attachments, and so does the step at the
    failure index, with the same attachment; no other step has one. *)
Theorem X14_screenshot_on_record_and_failed_step
        (base : Z) (c : case) (w w' : world) (z : Z) (dir : string) (src : entry) :
  emit_case base c w = (Ok z, w') ->
  case_status c = failed ->
  ET.lookup (report_name c) REPORT_TO_MAESTRO_DIR = Some dir ->
  Screenshot.find_latest_screenshot (ET.lookup dir (output_dirs w)) = Some src ->
  let att := screenshot_of (uuid4 w (S (uuid_calls w))) src in
  exists (r : result) (f : nat),
    created w'
    = (uuid4 w (uuid_calls w) ++ "-result.json", ResultJson r)
        :: (att_source att, CopyOf src) :: created w
    /\ attachments r = Some [att]
    /\ Correlator.failed_step_index (case_status c) (status_details c)
         (step_names_of w c) = Z.of_nat f
    /\ (f < List.length (steps r))%nat
    /\ forall i s, nth_error (steps r) i = Some s ->
                   step_attachments s = if Nat.eqb i f then Some [att] else None.
Proof.
  intros Hrun Hst Hdir Hsrc att.
  rewrite emit_case_steps in Hrun. unfold bind at 1 in Hrun.
  rewrite (attach_found c _ (initial_record base c w) (after_uuid w) dir src
             Hst Hdir Hsrc) in Hrun.
  cbn [after_uuid uuid4 uuid_calls steps initial_record] in Hrun.
  fold att in Hrun.
  set (names := step_names_of w c) in *.
  destruct names as [|n ns] eqn:Hn.
  - exfalso. unfold Correlator.failed_step_index in Hrun.
    assert (Hf : forall parts, Correlator.scan_parts parts [] (-1) = -1).
    { induction parts as [|p ps IH]; [reflexivity|].
      cbn [Correlator.scan_parts Correlator.first_containing].
      destruct (2 <? String.length p)%nat; exact IH. }
    cbn [List.length Z.of_nat Z.sub] in Hrun.
    replace (match case_status c with
             | failed =>
                 match status_details c with
                 | Some d => Correlator.scan_parts (Correlator.candidates d) [] (0 - 1)
                 | None => 0 - 1
                 end
             | _ => 0 - 1
             end) with (-1) in Hrun
      by (destruct (case_status c); try reflexivity;
          destruct (status_details c); [symmetry; apply Hf | reflexivity]).
    cbn in Hrun. discriminate.
  - destruct (failed_step_index_range (case_status c) (status_details c) (n :: ns))
      as (f & Hf & Hlt); [cbn; lia|].
    rewrite Hf in Hrun |- *.
    assert (Hlen : List.length (step_objects base c (n :: ns)) = List.length (n :: ns))
      by apply step_objects_length.
    destruct (Z.ltb_spec (Z.of_nat f) (len (step_objects base c (n :: ns))));
      [|unfold len in *; lia].
    rewrite update_item_at in Hrun by lia.
    unfold bind, write_file, modify, ret in Hrun.
    inversion Hrun; subst; clear Hrun. cbn [created].
    eexists. exists f. split; [reflexivity|]. split; [reflexivity|].
    split; [reflexivity|]. cbn [steps with_screenshot].
    split.
    + rewrite <- (length_map without_attachments), update_nth_plain, length_map. lia.
    + intros i s Hi. rewrite update_nth_nth in Hi.
      destruct (Nat.eqb i f).
      * destruct (nth_error (step_objects base c (n :: ns)) i); [|discriminate].
        inversion Hi. reflexivity.
      * eapply step_objects_plain_attachments, Hi.
Qed.

Lemma X14_screenshot_witness :
  emit_case 98500 quoting_case two_cases = (Ok 99500, after_quoting)
  /\ case_status quoting_case = failed
  /\ ET.lookup (report_name quoting_case) REPORT_TO_MAESTRO_DIR = Some "maestro-assets"
  /\ Screenshot.find_latest_screenshot
       (ET.lookup "maestro-assets" (output_dirs two_cases)) = Some shot
  /\ let att := screenshot_of (uuid4 two_cases (S (uuid_calls two_cases))) shot in
     exists (r : result) (f : nat),
       created after_quoting
       = (uuid4 two_cases (uuid_calls two_cases) ++ "-result.json", ResultJson r)
           :: (att_source att, CopyOf shot) :: created two_cases
       /\ attachments r = Some [att]
       /\ Correlator.failed_step_index (case_status quoting_case)
            (status_details quoting_case) (step_names_of two_cases quoting_case)
          = Z.of_nat f
       /\ (f < List.length (steps r))%nat
       /\ forall i s, nth_error (steps r) i = Some s ->
                      step_attachments s = if Nat.eqb i f then Some [att] else None.
Proof.
  assert (H1 : emit_case 98500 quoting_case two_cases = (Ok 99500, after_quoting))
    by (vm_compute; reflexivity).
  assert (H2 : case_status quoting_case = failed) by reflexivity.
  assert (H3 : ET.lookup (report_name quoting_case) REPORT_TO_MAESTRO_DIR
               = Some "maestro-assets") by reflexivity.
  assert (H4 : Screenshot.find_latest_screenshot
                 (ET.lookup "maestro-assets" (output_dirs two_cases)) = Some shot)
    by (vm_compute; reflexivity).
  split; [exact H1|]. split; [exact H2|]. split; [exact H3|]. split; [exact H4|].
  exact (X14_screenshot_on_record_and_failed_step 98500 quoting_case two_cases
           after_quoting 99500 "maestro-assets" shot H1 H2 H3 H4).
Defined.



(** X16: a case that failed by its status attribute alone, without
    failure marker, emitted without exception.  The record has no
    statusDetails and no step has one; the last step is failed and every
    step before it is passed. *)
Theorem X16_failed_without_detail (base : Z) (c : case) (w w' : world) (z : Z) :
  emit_case base c w = (Ok z, w') ->
  case_status c = failed ->
  status_details c = None ->
  exists r,
    emitted w' = (emitted w ++ [r])%list
    /\ result_status r = failed
    /\ statusDetails r = None
    /\ forall i s, nth_error (steps r) i = Some s ->
         step_statusDetails s = None
         /\ step_status s
            = if Nat.eqb (S i) (List.length (steps r)) then failed else passed.
Proof.
  intros Hrun Hst Hsd. apply emit_case_ok in Hrun.
  destruct Hrun as (r & Hem & _ & _ & _ & Hrs & Hd & Hsteps).
  exists r. split; [exact Hem|]. split; [congruence|].
  split; [rewrite Hd, Hst, Hsd; reflexivity|].
  assert (Hlen : List.length (steps r) = List.length (step_names_of w c)).
  { rewrite <- (length_map without_attachments), Hsteps. apply step_objects_length. }
  intros i s Hi. assert (Hi' := Hi).
  apply nth_error_plain in Hi. rewrite Hsteps in Hi. unfold step_objects in Hi.
  apply step_objects_from_nth in Hi. cbn zeta in Hi.
  destruct Hi as (_ & _ & _ & Hs & Hdd & _).
  cbn [without_attachments step_status step_statusDetails] in Hs, Hdd.
  rewrite Hst, Hsd in Hs, Hdd.
  unfold Correlator.failed_step_index in Hs. cbn [status_eqb negb] in Hs.
  split; [destruct (_ && _) in Hdd; exact Hdd|].
  rewrite Hs, Hlen. rewrite Z.add_0_l.
  assert (Hi2 : (i < List.length (steps r))%nat) by (apply nth_error_Some; congruence).
  destruct (Nat.eqb_spec (S i) (List.length (step_names_of w c))) as [E|E].
  - rewrite <- E. replace (Z.of_nat (S i) - 1) with (Z.of_nat i) by lia.
    rewrite Z.eqb_refl. reflexivity.
  - destruct (Z.eqb_spec (Z.of_nat i) (Z.of_nat (List.length (step_names_of w c)) - 1));
      [lia|].
    destruct (Z.ltb_spec (Z.of_nat (List.length (step_names_of w c)) - 1) (Z.of_nat i));
      [lia | reflexivity].
Qed.

Lemma X16_failed_without_detail_witness :
  emit_case 98500 undetailed_case two_cases
  = (Ok 100500, snd (emit_case 98500 undetailed_case two_cases))
  /\ case_status undetailed_case = failed
  /\ status_details undetailed_case = None
  /\ exists r,
    emitted (snd (emit_case 98500 undetailed_case two_cases))
    = (emitted two_cases ++ [r])%list
    /\ result_status r = failed
    /\ statusDetails r = None
    /\ forall i s, nth_error (steps r) i = Some s ->
         step_statusDetails s = None
         /\ step_status s
            = if Nat.eqb (S i) (List.length (steps r)) then failed else passed.
Proof.
  assert (H1 : emit_case 98500 undetailed_case two_cases
               = (Ok 100500, snd (emit_case 98500 undetailed_case two_cases)))
    by (vm_compute; reflexivity).
  split; [exact H1|]. split; [reflexivity|]. split; [reflexivity|].
  exact (X16_failed_without_detail 98500 undetailed_case two_cases _ 100500
           H1 eq_refl eq_refl).
Defined.

Lemma attach_screenshot_result (c : case) (f : Z) (r r' : result) (w w' : world) :
  attach_screenshot c f r w = (Ok r', w') ->
  r' = r \/ exists att l, r' = with_screenshot att l r.
Proof.
  unfold attach_screenshot.
  destruct (case_status c); try (intros H; inversion H; left; reflexivity).
  destruct (ET.lookup _ _); [|intros H; inversion H; left; reflexivity].
  unfold bind, gets, fresh_uuid, Screenshot.copy_screenshot_to_allure.
  destruct (Screenshot.find_latest_screenshot _);
    [|unfold ret; intros H; inversion H; left; reflexivity].
  unfold bind, write_file, modify, ret, lift.
  destruct (_ <? _).
  - destruct (update_item _ _ _) as [l|]; [|discriminate].
    intros H. inversion H. right. eexists. eexists. reflexivity.
  - intros H. inversion H. right. eexists. eexists. reflexivity.
Qed.

(** X17: the record of a case is the last file written by its emission,
    under the name made of its own uuid and -result.json.  The uuid is
    the first identifier drawn for the case; name, historyId, fullName
    and the three labels are made from the name of the case, and the
    status is the status of the case. *)
Theorem X17_record_identity (base : Z) (c : case) (w w' : world) (z : Z) :
  emit_case base c w = (Ok z, w') ->
  exists r rest,
    created w' = (uuid r ++ "-result.json", ResultJson r) :: rest
    /\ uuid r = uuid4 w (uuid_calls w)
    /\ name r = case_name c
    /\ historyId r = "Test Suite:" ++ case_name c ++ "#" ++ case_name c
    /\ fullName r = "Test Suite:" ++ case_name c
    /\ labels r = [("suite", "Test Suite"); ("testClass", case_name c);
                   ("package", case_name c)]
    /\ result_status r = case_status c.
Proof.
  rewrite emit_case_steps. unfold bind at 1.
  destruct (attach_screenshot _ _ _ _) as [[r|e] w1] eqn:Hatt; [|discriminate].
  unfold bind, write_file, modify, ret. intros H. inversion H; subst; clear H.
  exists r, (created w1). cbn [created].
  apply attach_screenshot_result in Hatt.
  destruct Hatt as [-> | (att & l & ->)]; repeat split.
Qed.

Lemma X17_record_identity_witness :
  emit_case 98500 quoting_case two_cases = (Ok 99500, after_quoting)
  /\ exists r rest,
    created after_quoting = (uuid r ++ "-result.json", ResultJson r) :: rest
    /\ uuid r = uuid4 two_cases (uuid_calls two_cases)
    /\ name r = case_name quoting_case
    /\ historyId r
       = "Test Suite:" ++ case_name quoting_case ++ "#" ++ case_name quoting_case
    /\ fullName r = "Test Suite:" ++ case_name quoting_case
    /\ labels r = [("suite", "Test Suite"); ("testClass", case_name quoting_case);
                   ("package", case_name quoting_case)]
    /\ result_status r = case_status quoting_case.
Proof.
  assert (H1 : emit_case 98500 quoting_case two_cases = (Ok 99500, after_quoting))
    by (vm_compute; reflexivity).
  split; [exact H1|].
  exact (X17_record_identity 98500 quoting_case two_cases after_quoting 99500 H1).
Defined.

End EmitterRecords.

(** ** Documents, step records, a second run *)

Section MoreProperties.
Import PyChar PyStr Collector Emitter Samples MoreSamples.
Local Open Scope Z_scope.


Lemma step_objects_from_names (start_ms d : Z) (st : status) (sd : option details)
      (f : Z) (names : list string) :
  forall i, map step_name (step_objects_from start_ms d st sd f i names) = names.
Proof.
  induction names as [|n ns IH]; intros i; cbn; [reflexivity | now rewrite IH].
Qed.

Lemma step_name_plain (l : list step) :
  map step_name (map without_attachments l) = map step_name l.
Proof. rewrite map_map. reflexivity. Qed.

(** X19: the record of a case has one step record per step of its flow
    file, in the order of the file and under the name of the step. *)
Theorem X19_step_records_follow_the_flow (base : Z) (c : case) (w w' : world) (z : Z) :
  emit_case base c w = (Ok z, w') ->
  exists r,
    emitted w' = (emitted w ++ [r])%list
    /\ map step_name (steps r)
       = Flow.steps_from_flow_yaml (ET.lookup (flow_name c) (flows w)).
Proof.
  intros H. apply emit_case_ok in H.
  destruct H as (r & Hem & _ & _ & _ & _ & _ & Hsteps).
  exists r. split; [exact Hem|].
  rewrite <- step_name_plain, Hsteps. unfold step_objects.
  apply step_objects_from_names.
Qed.

Lemma X19_step_records_witness :
  emit_case 98500 quoting_case two_cases = (Ok 99500, after_quoting)
  /\ exists r,
    emitted after_quoting = (emitted two_cases ++ [r])%list
    /\ map step_name (steps r)
       = Flow.steps_from_flow_yaml
           (ET.lookup (flow_name quoting_case) (flows two_cases)).
Proof.
  assert (H1 : emit_case 98500 quoting_case two_cases = (Ok 99500, after_quoting))
    by (vm_compute; reflexivity).
  split; [exact H1|].
  exact (X19_step_records_follow_the_flow 98500 quoting_case two_cases
           after_quoting 99500 H1).
Defined.

(** X20: a second run after a run that ended without exception finds no
    report, writes nothing and changes nothing. *)
Theorem X20_second_run_is_idle (w w' : world) :
  junit_to_allure_results w = (Ok tt, w') ->
  junit_to_allure_results w' = (Ok tt, w').
Proof.
  intros H. apply run_consumes_reports in H.
  unfold junit_to_allure_results, bind.
  rewrite (collect_without_reports w' H). reflexivity.
Qed.

Lemma X20_second_run_witness :
  junit_to_allure_results two_cases = (Ok tt, after_run)
  /\ junit_to_allure_results after_run = (Ok tt, after_run).
Proof.
  assert (H : junit_to_allure_results two_cases = (Ok tt, after_run))
    by (vm_compute; reflexivity).
  split; [exact H|].
  exact (X20_second_run_is_idle two_cases after_run H).
Defined.

End MoreProperties.
